(** * Gen-Z AI photo editor: the edit pipeline, embedded and verified

    The development follows the three source units of the repository:

    - the Gemini service ([fileToBase64], [editImageWithAI]),
    - the [ImageDisplay] component ([handleDownload]),
    - the [App] component ([handleImageChange], [handleSubmit]), in its two
      revisions (with and without the [isApiConfigured] guard).

    JavaScript strings are sequences of UTF-16 code units; they are modelled
    as lists of numbers so that the regular expression of [handleDownload]
    sees the same alphabet as the engine (the line terminators U+2028 and
    U+2029 included). *)

From Stdlib Require Import String Ascii List NArith Bool Lia.
Import ListNotations.

Set Implicit Arguments.

(** ** JavaScript strings *)

Definition codeunit := N.
Definition jsstring := list codeunit.

(** A string literal of the source, as code units. *)
Definition js (s : string) : jsstring :=
  map N_of_ascii (list_ascii_of_string s).

Definition jsstring_eqb (a b : jsstring) : bool :=
  if list_eq_dec N.eq_dec a b then true else false.

(** [ToBoolean] on a string: only the empty string is falsy. *)
Definition truthy_string (s : jsstring) : bool :=
  match s with [] => false | _ :: _ => true end.

(** [ToBoolean] on [string | undefined] / [string | null]. *)
Definition truthy (v : option jsstring) : bool :=
  match v with None => false | Some s => truthy_string s end.

(** [`${v}`] for a value typed [string] that may be [undefined] at run time. *)
Definition template (v : option jsstring) : jsstring :=
  match v with Some s => s | None => js "undefined" end.

(** [s.split(sep)] for a one-character separator. *)
Fixpoint split_on (sep : codeunit) (s : jsstring) : list jsstring :=
  match s with
  | [] => [[]]
  | c :: s' =>
      if N.eqb c sep then [] :: split_on sep s'
      else match split_on sep s' with
           | [] => [[c]]
           | p :: ps => (c :: p) :: ps
           end
  end.

Definition COMMA : codeunit := 44%N.
Definition SLASH : codeunit := 47%N.

(** ** JavaScript values that travel through [throw] / [catch] *)

Inductive JsValue :=
| JsUndefined
| JsString (s : jsstring)
| JsEvent (type : jsstring)               (* e.g. the ProgressEvent of FileReader.onerror *)
| JsError (name message : jsstring).      (* an instance of Error or of a subclass *)

(** [new Error(msg)]. *)
Definition new_Error (msg : jsstring) : JsValue := JsError (js "Error") msg.

(** [v instanceof Error]. *)
Definition instanceof_Error (v : JsValue) : bool :=
  match v with JsError _ _ => true | _ => false end.

(** ** Data of the service *)

Record File := mkFile {
  file_name : jsstring;
  file_type : jsstring;
  file_size : N
}.

(** [inlineData] of a part ([Blob] of the SDK: both fields optional). *)
Record Blob := mkBlob {
  data : option jsstring;
  mimeType : option jsstring
}.

Record Part := mkPart {
  inlineData : option Blob;
  text : option jsstring
}.

Record Content := mkContent {
  parts : option (list Part)
}.

Record Candidate := mkCandidate {
  content : option Content;
  finishReason : option jsstring
}.

Record GenerateContentResponse := mkResponse {
  candidates : option (list Candidate)
}.

Inductive Modality := IMAGE | TEXT | AUDIO.

Inductive RequestPart :=
| InlinePart (d : option jsstring) (mime : jsstring)
| TextPart (t : jsstring).

Record GenerateContentParameters := mkParams {
  model : jsstring;
  contents_parts : list RequestPart;
  responseModalities : list Modality
}.

Definition MODEL_NAME : jsstring := js "gemini-2.5-flash-image".

(** ** Effects: outcomes, the observable trace and the monad *)

Inductive Outcome (A : Type) :=
| Return (a : A)
| Throw (v : JsValue).
Arguments Return {A} a.
Arguments Throw {A} v.

Inductive Event :=
| EvReadAsDataURL (f : File)
| EvConsoleError (label : jsstring) (v : JsValue)   (* label [[]]: console.error(v) *)
| EvGenerateContent (req : GenerateContentParameters).

Definition is_network_call (e : Event) : bool :=
  match e with EvGenerateContent _ => true | _ => false end.

Definition is_file_read (e : Event) : bool :=
  match e with EvReadAsDataURL _ => true | _ => false end.

(** A computation appends to the trace and ends by returning or throwing. *)
Definition M (A : Type) := list Event -> Outcome A * list Event.

Definition ret {A} (a : A) : M A := fun tr => (Return a, tr).
Definition throw {A} (v : JsValue) : M A := fun tr => (Throw v, tr).
Definition emit (e : Event) : M unit := fun tr => (Return tt, tr ++ [e]).

Definition bind {A B} (m : M A) (k : A -> M B) : M B :=
  fun tr =>
    match m tr with
    | (Return a, tr') => k a tr'
    | (Throw v, tr') => (Throw v, tr')
    end.

(** [try { m } catch (error) { h error }] *)
Definition try_catch {A} (m : M A) (h : JsValue -> M A) : M A :=
  fun tr =>
    match m tr with
    | (Return a, tr') => (Return a, tr')
    | (Throw v, tr') => h v tr'
    end.

(** Lifting the result of an awaited external promise. *)
Definition await {A} (o : Outcome A) : M A := fun tr => (o, tr).

Declare Scope js_scope.
Delimit Scope js_scope with js.
Notation "x <- m ;; k" := (bind m (fun x => k))
  (at level 61, m at next level, right associativity) : js_scope.
Notation "m ;;; k" := (bind m (fun _ => k))
  (at level 61, right associativity) : js_scope.
Open Scope js_scope.

Definition run {A} (m : M A) : Outcome A * list Event := m [].

(** ** The environment of the service module *)

(** What [FileReader] does with a file: [onload] with the data URL in
    [reader.result], or [onerror] with an event. *)
Inductive ReadResult :=
| Loaded (result : jsstring)
| ReadError (ev : JsValue).

Record Env := mkEnv {
  API_KEY : option jsstring;                       (* process.env.API_KEY *)
  readAsDataURL : File -> ReadResult;              (* FileReader *)
  generateContent :                                 (* ai.models.generateContent *)
    GenerateContentParameters -> Outcome GenerateContentResponse
}.

(** ** The service module *)

Definition MSG_NOT_CONFIGURED : jsstring :=
  js "API_KEY environment variable not set. Please configure it to use the AI features.".
Definition MSG_READ_FAILURE : jsstring :=
  js "Failed to read image file. It may be corrupted or in an unsupported format.".
Definition MSG_SAFETY_BLOCKED : jsstring :=
  js "The request was blocked for safety reasons. Please adjust your prompt and try again.".
Definition MSG_NO_IMAGE : jsstring :=
  js "The AI did not return an image. Please try a different prompt.".
Definition MSG_UNKNOWN_SERVICE : jsstring :=
  js "An unknown error occurred while communicating with the AI service.".

(** [fileToBase64]: the promise resolves with [result.split(',')[1]] on load
    and rejects with the event on error. *)
Definition fileToBase64 (env : Env) (file : File) : M (option jsstring) :=
  emit (EvReadAsDataURL file) ;;;
  match readAsDataURL env file with
  | Loaded result => ret (nth_error (split_on COMMA result) 1)
  | ReadError ev => throw ev
  end.

(** [response.candidates?.[0]] *)
Definition firstCandidate (response : GenerateContentResponse) : option Candidate :=
  match candidates response with
  | Some cs => nth_error cs 0
  | None => None
  end.

(** [response.candidates?.[0]?.content?.parts?.[0]] *)
Definition firstPart (response : GenerateContentResponse) : option Part :=
  match firstCandidate response with
  | Some c =>
      match content c with
      | Some ct =>
          match parts ct with
          | Some ps => nth_error ps 0
          | None => None
          end
      | None => None
      end
  | None => None
  end.

(** [response.candidates?.[0]?.finishReason === 'SAFETY'] *)
Definition finishedForSafety (response : GenerateContentResponse) : bool :=
  match firstCandidate response with
  | Some c =>
      match finishReason c with
      | Some r => jsstring_eqb r (js "SAFETY")
      | None => false
      end
  | None => false
  end.

(** [firstPart && firstPart.inlineData]: the inline data the condition of
    the [if] finds, if any. *)
Definition inlineImage (response : GenerateContentResponse) : option Blob :=
  match firstPart response with
  | Some part => inlineData part
  | None => None
  end.

(** The body of the second [try] after the awaited call: the interpretation
    of the response (image first, then the safety check, then the generic
    failure). *)
Definition interpret (response : GenerateContentResponse) : M jsstring :=
  match inlineImage response with
  | Some blob =>
      let base64ImageBytes := data blob in
      let mimeType := mimeType blob in
      ret (js "data:" ++ template mimeType ++ js ";base64," ++ template base64ImageBytes)
  | None =>
      if finishedForSafety response
      then throw (new_Error MSG_SAFETY_BLOCKED)
      else throw (new_Error MSG_NO_IMAGE)
  end.

Definition request_of (base64ImageData : option jsstring) (imageFile : File)
    (prompt : jsstring) : GenerateContentParameters :=
  {| model := MODEL_NAME;
     contents_parts := [InlinePart base64ImageData (file_type imageFile); TextPart prompt];
     responseModalities := [IMAGE] |}.

(** The request [editImageWithAI] sends for a file whose reader result is
    [result]. *)
Definition sent_request (imageFile : File) (prompt result : jsstring)
    : GenerateContentParameters :=
  request_of (nth_error (split_on COMMA result) 1) imageFile prompt.

(** The first [try]/[catch] of [editImageWithAI]: the file is read and
    encoded, a failure is logged and replaced by the read-failure error. *)
Definition encode (env : Env) (imageFile : File) : M (option jsstring) :=
  try_catch (fileToBase64 env imageFile)
    (fun error =>
       emit (EvConsoleError (js "Error reading file:") error) ;;;
       throw (new_Error MSG_READ_FAILURE)).

(** [editImageWithAI].  The construction of the client between the
    credential check and the read has no effect of its own. *)
Definition editImageWithAI (env : Env) (imageFile : File) (prompt : jsstring) : M jsstring :=
  if negb (truthy (API_KEY env)) then
    throw (new_Error MSG_NOT_CONFIGURED)
  else
    base64ImageData <- encode env imageFile ;;
    try_catch
      (let req := request_of base64ImageData imageFile prompt in
       emit (EvGenerateContent req) ;;;
       response <- await (generateContent env req) ;;
       interpret response)
      (fun error =>
         emit (EvConsoleError (js "Error calling AI service:") error) ;;;
         if instanceof_Error error then throw error
         else throw (new_Error MSG_UNKNOWN_SERVICE)).

(** ** Regular expressions of the shape used by [ImageDisplay]

    A backtracking matcher in continuation-passing style, with the priorities
    of the ECMAScript engine: quantifiers are greedy and give characters back
    one at a time; the search tries every start position from the left.
    Quantifiers range over one-character atoms (a class or the dot), which
    is all the source pattern uses. *)

Inductive regex :=
| Lit (s : jsstring)                 (* literal characters *)
| Star (cls : codeunit -> bool)      (* atom* *)
| Plus (cls : codeunit -> bool)      (* atom+ *)
| Seq (r1 r2 : regex)
| Group (r : regex).                 (* ( r ), capturing *)

Fixpoint strip_prefix (l s : jsstring) : option jsstring :=
  match l, s with
  | [], _ => Some s
  | a :: l', b :: s' => if N.eqb a b then strip_prefix l' s' else None
  | _ :: _, [] => None
  end.

Section Matcher.
Variable R : Type.

(** Greedy iteration of a one-character atom: take the character when it
    is in the class and iterate; on failure of what follows, give it back. *)
Fixpoint star_cls (cls : codeunit -> bool) (s : jsstring)
    (k : jsstring -> option R) : option R :=
  match s with
  | c :: s' =>
      if cls c then
        match star_cls cls s' k with
        | Some r => Some r
        | None => k s
        end
      else k s
  | [] => k []
  end.

(** [exec r s caps k]: match [r] at the head of [s], then continue with
    [k] on the rest and the captures made so far. *)
Fixpoint exec (r : regex) (s : jsstring) (caps : list jsstring)
    (k : jsstring -> list jsstring -> option R) : option R :=
  match r with
  | Lit l =>
      match strip_prefix l s with
      | Some s' => k s' caps
      | None => None
      end
  | Star cls => star_cls cls s (fun s' => k s' caps)
  | Plus cls =>
      match s with
      | c :: s' => if cls c then star_cls cls s' (fun s'' => k s'' caps) else None
      | [] => None
      end
  | Seq r1 r2 => exec r1 s caps (fun s' caps' => exec r2 s' caps' k)
  | Group r1 =>
      exec r1 s caps
           (fun s' caps' => k s' (caps' ++ [firstn (length s - length s') s]))
  end.
End Matcher.

(** One attempt at a fixed start position: the match array
    [[whole; group 1; ...]]. *)
Definition match_here (r : regex) (s : jsstring) : option (list jsstring) :=
  exec r s [] (fun s' caps => Some (firstn (length s - length s') s :: caps)).

(** [s.match(r)] for a pattern without the global flag: the leftmost start
    position that matches, or [null]. *)
Fixpoint js_match (r : regex) (s : jsstring) : option (list jsstring) :=
  match match_here r s with
  | Some m => Some m
  | None =>
      match s with
      | [] => None
      | _ :: s' => js_match r s'
      end
  end.

Open Scope N_scope.

Definition in_range (lo hi c : codeunit) : bool := (N.leb lo c && N.leb c hi)%bool.

(** [[a-zA-Z0-9]] *)
Definition cls_alnum (c : codeunit) : bool :=
  (in_range 97 122 c || in_range 65 90 c || in_range 48 57 c)%bool.

(** [[a-zA-Z0-9-.+]]: after the range [0-9] the dash is a literal. *)
Definition cls_subtype (c : codeunit) : bool :=
  (cls_alnum c || N.eqb c 45 || N.eqb c 46 || N.eqb c 43)%bool.

(** LineTerminator: LF, CR, U+2028, U+2029. *)
Definition is_line_terminator (c : codeunit) : bool :=
  (N.eqb c 10 || N.eqb c 13 || N.eqb c 8232 || N.eqb c 8233)%bool.

Close Scope N_scope.

(** The dot (no [s] flag): any code unit but a line terminator. *)
Definition cls_dot (c : codeunit) : bool := negb (is_line_terminator c).

(** [/data:([a-zA-Z0-9]+\/[a-zA-Z0-9-.+]+).*,.*/] *)
Definition MIME_RE : regex :=
  Seq (Lit (js "data:"))
 (Seq (Group (Seq (Plus cls_alnum) (Seq (Lit (js "/")) (Plus cls_subtype))))
 (Seq (Star cls_dot)
 (Seq (Lit (js ","))
      (Star cls_dot)))).

(** ** The [ImageDisplay] component *)

(** What [handleDownload] hands to the browser: the anchor it clicks. *)
Record Download := mkDownload {
  href : jsstring;
  download : jsstring
}.

Definition extension_of (imageUrl : jsstring) : option jsstring :=
  let mimeTypeMatch := js_match MIME_RE imageUrl in
  match mimeTypeMatch with
  | Some arr =>
      if Nat.ltb 1 (length arr) then
        match nth_error arr 1 with
        | Some g => nth_error (split_on SLASH g) 1
        | None => None
        end
      else Some (js "png")
  | None => Some (js "png")
  end.

(** [None] is the early [return] on a falsy [imageUrl]. *)
Definition handleDownload (imageUrl : option jsstring) : option Download :=
  match imageUrl with
  | None => None
  | Some url =>
      if negb (truthy_string url) then None
      else
        let extension := extension_of url in
        Some {| href := url;
                download := js "genz-hub-edit." ++ template extension |}
  end.

(** ** [String.prototype.trim] *)

Open Scope N_scope.

(** WhiteSpace and LineTerminator code units. *)
Definition is_white_space (c : codeunit) : bool :=
  (N.eqb c 9 || N.eqb c 11 || N.eqb c 12 || N.eqb c 32 || N.eqb c 160
   || N.eqb c 5760 || in_range 8192 8202 c || N.eqb c 8239 || N.eqb c 8287
   || N.eqb c 12288 || N.eqb c 65279 || is_line_terminator c)%bool.

Close Scope N_scope.

Fixpoint trim_start (s : jsstring) : jsstring :=
  match s with
  | c :: s' => if is_white_space c then trim_start s' else s
  | [] => []
  end.

Definition trim (s : jsstring) : jsstring :=
  rev (trim_start (rev (trim_start s))).

(** ** The [App] component *)

Definition MAX_SIZE : N := (4 * 1024 * 1024)%N.
Definition allowedTypes : list jsstring :=
  [js "image/png"; js "image/jpeg"; js "image/webp"].

(** [Array.prototype.includes] on strings. *)
Definition includes (l : list jsstring) (x : jsstring) : bool :=
  existsb (jsstring_eqb x) l.

Definition MSG_TOO_LARGE : jsstring :=
  js "Image size exceeds 4MB. Please choose a smaller file.".
Definition MSG_INVALID_TYPE : jsstring :=
  js "Invalid file type. Please upload a PNG, JPG, or WEBP image.".
Definition MSG_MISSING_INPUT : jsstring :=
  js "Please upload an image and enter a prompt.".
Definition MSG_UNKNOWN : jsstring :=
  js "An unknown error occurred.".

(** [e instanceof Error ? e.message : 'An unknown error occurred.'] *)
Definition errorMessage_of (e : JsValue) : jsstring :=
  match e with
  | JsError _ message => message
  | _ => MSG_UNKNOWN
  end.

(** The current revision of the component (with the configuration guard). *)
Module App.

Record State := mkState {
  originalImageFile : option File;
  prompt : jsstring;
  editedImageUrl : option jsstring;
  isLoading : bool;
  isUploading : bool;
  runtimeError : option jsstring
}.

Definition initial : State :=
  {| originalImageFile := None; prompt := []; editedImageUrl := None;
     isLoading := false; isUploading := false; runtimeError := None |}.

Definition setOriginalImageFile (v : option File) (s : State) : State :=
  {| originalImageFile := v; prompt := prompt s;
     editedImageUrl := editedImageUrl s; isLoading := isLoading s;
     isUploading := isUploading s; runtimeError := runtimeError s |}.
Definition setPrompt (v : jsstring) (s : State) : State :=
  {| originalImageFile := originalImageFile s; prompt := v;
     editedImageUrl := editedImageUrl s; isLoading := isLoading s;
     isUploading := isUploading s; runtimeError := runtimeError s |}.
Definition setEditedImageUrl (v : option jsstring) (s : State) : State :=
  {| originalImageFile := originalImageFile s; prompt := prompt s;
     editedImageUrl := v; isLoading := isLoading s;
     isUploading := isUploading s; runtimeError := runtimeError s |}.
Definition setIsLoading (v : bool) (s : State) : State :=
  {| originalImageFile := originalImageFile s; prompt := prompt s;
     editedImageUrl := editedImageUrl s; isLoading := v;
     isUploading := isUploading s; runtimeError := runtimeError s |}.
Definition setIsUploading (v : bool) (s : State) : State :=
  {| originalImageFile := originalImageFile s; prompt := prompt s;
     editedImageUrl := editedImageUrl s; isLoading := isLoading s;
     isUploading := v; runtimeError := runtimeError s |}.
Definition setRuntimeError (v : option jsstring) (s : State) : State :=
  {| originalImageFile := originalImageFile s; prompt := prompt s;
     editedImageUrl := editedImageUrl s; isLoading := isLoading s;
     isUploading := isUploading s; runtimeError := v |}.

(** [useMemo(() => !!process.env.API_KEY, [])] *)
Definition isApiConfigured (env : Env) : bool := truthy (API_KEY env).

Definition apiKeyError (env : Env) : option jsstring :=
  if negb (isApiConfigured env) then Some MSG_NOT_CONFIGURED else None.

(** [apiKeyError || runtimeError] *)
Definition error (env : Env) (s : State) : option jsstring :=
  if truthy (apiKeyError env) then apiKeyError env else runtimeError s.

(** The synchronous part of [handleImageChange], for a selected file. *)
Definition handleImageChange_select (s : State) : State :=
  setIsUploading true
    (setRuntimeError None
       (setEditedImageUrl None
          (setOriginalImageFile None s))).

(** The callback given to [setTimeout]. *)
Definition handleImageChange_timeout (file : File) (s : State) : State :=
  if N.ltb MAX_SIZE (file_size file) then
    setIsUploading false (setRuntimeError (Some MSG_TOO_LARGE) s)
  else if negb (includes allowedTypes (file_type file)) then
    setIsUploading false (setRuntimeError (Some MSG_INVALID_TYPE) s)
  else
    setIsUploading false (setOriginalImageFile (Some file) s).

(** [handleImageChange] on [event.target.files?.[0]], run to the end of
    its timer. *)
Definition handleImageChange (file0 : option File) (s : State) : State :=
  match file0 with
  | Some file => handleImageChange_timeout file (handleImageChange_select s)
  | None => s
  end.

Section Submit.
(** The import [editImageWithAI] of the component. *)
Variable editImage : File -> jsstring -> M jsstring.
Variable configured : bool.

(** [handleSubmit] up to the [await]: [None] when a guard returned early
    (with the state it left), otherwise the file and prompt submitted. *)
Definition handleSubmit_begin (s : State) : State * option (File * jsstring) :=
  if negb configured then (s, None)
  else
    match originalImageFile s with
    | Some file =>
        if truthy_string (trim (prompt s)) then
          (setEditedImageUrl None (setRuntimeError None (setIsLoading true s)),
           Some (file, prompt s))
        else (setRuntimeError (Some MSG_MISSING_INPUT) s, None)
    | None => (setRuntimeError (Some MSG_MISSING_INPUT) s, None)
    end.

(** [handleSubmit] from the settlement of the awaited promise on. *)
Definition handleSubmit_settle (o : Outcome jsstring) (s : State)
    : State * list Event :=
  match o with
  | Return resultUrl =>
      (setIsLoading false (setEditedImageUrl (Some resultUrl) s), [])
  | Throw e =>
      (setIsLoading false (setRuntimeError (Some (errorMessage_of e)) s),
       [EvConsoleError [] e])
  end.

(** One uninterrupted run of [handleSubmit]: the final state and the
    trace of the call and of the handler. *)
Definition handleSubmit_with (s : State) : State * list Event :=
  match handleSubmit_begin s with
  | (s1, None) => (s1, [])
  | (s1, Some (file, p)) =>
      let '(o, tr) := run (editImage file p) in
      let '(s2, tr') := handleSubmit_settle o s1 in
      (s2, tr ++ tr')
  end.
End Submit.

Definition handleSubmit (env : Env) (s : State) : State * list Event :=
  handleSubmit_with (editImageWithAI env) (isApiConfigured env) s.

End App.

(** The earlier revision of the component (src/App.tsx): one [error] slot,
    no configuration guard in [handleSubmit]. *)
Module AppLegacy.

Record State := mkState {
  originalImageFile : option File;
  prompt : jsstring;
  editedImageUrl : option jsstring;
  isLoading : bool;
  isUploading : bool;
  error : option jsstring
}.

Definition setOriginalImageFile (v : option File) (s : State) : State :=
  {| originalImageFile := v; prompt := prompt s;
     editedImageUrl := editedImageUrl s; isLoading := isLoading s;
     isUploading := isUploading s; error := error s |}.
Definition setPrompt (v : jsstring) (s : State) : State :=
  {| originalImageFile := originalImageFile s; prompt := v;
     editedImageUrl := editedImageUrl s; isLoading := isLoading s;
     isUploading := isUploading s; error := error s |}.
Definition setEditedImageUrl (v : option jsstring) (s : State) : State :=
  {| originalImageFile := originalImageFile s; prompt := prompt s;
     editedImageUrl := v; isLoading := isLoading s;
     isUploading := isUploading s; error := error s |}.
Definition setIsLoading (v : bool) (s : State) : State :=
  {| originalImageFile := originalImageFile s; prompt := prompt s;
     editedImageUrl := editedImageUrl s; isLoading := v;
     isUploading := isUploading s; error := error s |}.
Definition setIsUploading (v : bool) (s : State) : State :=
  {| originalImageFile := originalImageFile s; prompt := prompt s;
     editedImageUrl := editedImageUrl s; isLoading := isLoading s;
     isUploading := v; error := error s |}.
Definition setError (v : option jsstring) (s : State) : State :=
  {| originalImageFile := originalImageFile s; prompt := prompt s;
     editedImageUrl := editedImageUrl s; isLoading := isLoading s;
     isUploading := isUploading s; error := v |}.

Definition handleImageChange_select (s : State) : State :=
  setIsUploading true
    (setError None
       (setEditedImageUrl None
          (setOriginalImageFile None s))).

Definition handleImageChange_timeout (file : File) (s : State) : State :=
  if N.ltb MAX_SIZE (file_size file) then
    setIsUploading false (setError (Some MSG_TOO_LARGE) s)
  else if negb (includes allowedTypes (file_type file)) then
    setIsUploading false (setError (Some MSG_INVALID_TYPE) s)
  else
    setIsUploading false (setOriginalImageFile (Some file) s).

Definition handleImageChange (file0 : option File) (s : State) : State :=
  match file0 with
  | Some file => handleImageChange_timeout file (handleImageChange_select s)
  | None => s
  end.

Section Submit.
Variable editImage : File -> jsstring -> M jsstring.

Definition handleSubmit_begin (s : State) : State * option (File * jsstring) :=
  match originalImageFile s with
  | Some file =>
      if truthy_string (trim (prompt s)) then
        (setEditedImageUrl None (setError None (setIsLoading true s)),
         Some (file, prompt s))
      else (setError (Some MSG_MISSING_INPUT) s, None)
  | None => (setError (Some MSG_MISSING_INPUT) s, None)
  end.

Definition handleSubmit_settle (o : Outcome jsstring) (s : State)
    : State * list Event :=
  match o with
  | Return resultUrl =>
      (setIsLoading false (setEditedImageUrl (Some resultUrl) s), [])
  | Throw e =>
      (setIsLoading false (setError (Some (errorMessage_of e)) s),
       [EvConsoleError [] e])
  end.

Definition handleSubmit_with (s : State) : State * list Event :=
  match handleSubmit_begin s with
  | (s1, None) => (s1, [])
  | (s1, Some (file, p)) =>
      let '(o, tr) := run (editImage file p) in
      let '(s2, tr') := handleSubmit_settle o s1 in
      (s2, tr ++ tr')
  end.
End Submit.

Definition handleSubmit (env : Env) (s : State) : State * list Event :=
  handleSubmit_with (editImageWithAI env) s.

End AppLegacy.

(** ** Interleaving during the [await]

    While the promise of [editImageWithAI] is pending the component still
    handles the events whose controls stay enabled: a new file selection (its
    two halves) and edits of the prompt.  The submit button is disabled by
    [isLoading]. *)

Inductive UiEvent :=
| UiSelect                       (* handleImageChange, synchronous half *)
| UiTimeout (file : File)        (* handleImageChange, timer callback *)
| UiPrompt (v : jsstring).       (* the textarea's onChange *)

Definition ui_step (s : App.State) (ev : UiEvent) : App.State :=
  match ev with
  | UiSelect => App.handleImageChange_select s
  | UiTimeout file => App.handleImageChange_timeout file s
  | UiPrompt v => App.setPrompt v s
  end.

(** [handleSubmit] with the events [evs] handled between the call and the
    settlement of its promise. *)
Definition handleSubmit_interleaved (editImage : File -> jsstring -> M jsstring)
    (configured : bool) (evs : list UiEvent) (s : App.State)
    : App.State * list Event :=
  match App.handleSubmit_begin configured s with
  | (s1, None) => (s1, [])
  | (s1, Some (file, p)) =>
      let '(o, tr) := run (editImage file p) in
      let '(s2, tr') := App.handleSubmit_settle o (fold_left ui_step evs s1) in
      (s2, tr ++ tr')
  end.

(** ** Reading a data URI directly (reference for the pattern)

    The vocabulary in which the download name is specified: the media type
    of a data URI is the token [type/subtype] after [data:], each the longest
    run of its alphabet, provided a comma follows on the same line. *)

Fixpoint span (cls : codeunit -> bool) (s : jsstring) : jsstring * jsstring :=
  match s with
  | c :: s' =>
      if cls c then let '(a, b) := span cls s' in (c :: a, b)
      else ([], s)
  | [] => ([], [])
  end.

(** A class stops at [rest]: the string ends or its head is outside. *)
Definition stops (cls : codeunit -> bool) (rest : jsstring) : Prop :=
  match rest with
  | [] => True
  | c :: _ => cls c = false
  end.

Fixpoint comma_on_line (s : jsstring) : bool :=
  match s with
  | [] => false
  | c :: s' =>
      if N.eqb c COMMA then true
      else if is_line_terminator c then false
      else comma_on_line s'
  end.

(** [ty], [sub] and [tail] are the type, the subtype and what follows them
    in a URI [data:ty/sub tail] whose media type reads. *)
Definition media_type_tokens (ty sub tail : jsstring) : bool :=
  (truthy_string ty && forallb cls_alnum ty
   && truthy_string sub && forallb cls_subtype sub
   && match tail with [] => true | c :: _ => negb (cls_subtype c) end
   && comma_on_line tail)%bool.

Definition spec_media_type_here (s : jsstring) : option (jsstring * jsstring) :=
  match strip_prefix (js "data:") s with
  | None => None
  | Some s1 =>
      match span cls_alnum s1 with
      | ([], _) => None
      | (_, []) => None
      | (ty, c :: s3) =>
          if N.eqb c SLASH then
            match span cls_subtype s3 with
            | ([], _) => None
            | (sub, tail) => if comma_on_line tail then Some (ty, sub) else None
            end
          else None
      end
  end.

(** The first position of the URI at which a media type reads. *)
Fixpoint spec_media_type (s : jsstring) : option (jsstring * jsstring) :=
  match spec_media_type_here s with
  | Some r => Some r
  | None =>
      match s with
      | [] => None
      | _ :: s' => spec_media_type s'
      end
  end.

(** The extension the specification names: the subtype, or [png]. *)
Definition spec_extension (url : jsstring) : jsstring :=
  match spec_media_type url with
  | Some (_, sub) => sub
  | None => js "png"
  end.

(** ** Sample data *)

Definition MiB : N := (1024 * 1024)%N.

Definition cat_png : File :=
  {| file_name := js "cat.png"; file_type := js "image/png"; file_size := (2 * MiB)%N |}.
Definition big_jpeg : File :=
  {| file_name := js "big.jpg"; file_type := js "image/jpeg"; file_size := (5 * MiB)%N |}.
Definition big_text : File :=
  {| file_name := js "big.txt"; file_type := js "text/plain"; file_size := (4 * MiB + 1)%N |}.

Definition response_of (blob : option Blob) (reason : option jsstring)
    : GenerateContentResponse :=
  {| candidates :=
       Some [ {| content := Some {| parts := Some [ {| inlineData := blob; text := None |} ] |};
                 finishReason := reason |} ] |}.

Definition png_blob : Blob :=
  {| data := Some (js "iVBORw0KGgo="); mimeType := Some (js "image/png") |}.

(** An image together with a safety finish reason. *)
Definition response_image_and_safety : GenerateContentResponse :=
  response_of (Some png_blob) (Some (js "SAFETY")).
Definition response_safety : GenerateContentResponse :=
  response_of None (Some (js "SAFETY")).
Definition response_stop : GenerateContentResponse :=
  response_of None (Some (js "STOP")).
Definition response_empty : GenerateContentResponse :=
  {| candidates := None |}.

Definition reader_ok (f : File) : ReadResult :=
  Loaded (js "data:" ++ file_type f ++ js ";base64,QUJD").
Definition reader_broken (f : File) : ReadResult :=
  ReadError (JsEvent (js "error")).

Definition env_of (key : option jsstring) (reader : File -> ReadResult)
    (answer : Outcome GenerateContentResponse) : Env :=
  {| API_KEY := key; readAsDataURL := reader; generateContent := fun _ => answer |}.

Definition a_key : option jsstring := Some (js "AIza-key").
Definition a_prompt : jsstring := js "add a hat".

Definition cat_loaded : App.State :=
  {| App.originalImageFile := Some cat_png; App.prompt := a_prompt;
     App.editedImageUrl := Some (js "data:image/png;base64,b2xk");
     App.isLoading := false; App.isUploading := false;
     App.runtimeError := None |}.

(** ** What [ImageDisplay] renders *)

Module ImageDisplay.

Record Props := mkProps {
  title : jsstring;
  imageUrl : option jsstring;
  isLoading : bool;
  hasContent : bool
}.

(** The content of the frame. *)
Inductive Body :=
| LoadingSpinner
| Image (src : jsstring)
| Placeholder.

(** [isLoading ? spinner : imageUrl ? img : (hasContent ? placeholder : placeholder)] *)
Definition body (p : Props) : Body :=
  if isLoading p then LoadingSpinner
  else
    match imageUrl p with
    | Some url =>
        if truthy_string url then Image url
        else if hasContent p then Placeholder else Placeholder
    | None => if hasContent p then Placeholder else Placeholder
    end.

(** [imageUrl && !isLoading && <button onClick={handleDownload}>] *)
Definition downloadButton (p : Props) : bool :=
  (truthy (imageUrl p) && negb (isLoading p))%bool.

(** The click on the button. *)
Definition onClick (p : Props) : option Download := handleDownload (imageUrl p).

End ImageDisplay.

(** ** What [App] renders (current revision) *)

Module AppView.

(** [!x] on [File | null]. *)
Definition no_file (f : option File) : bool :=
  match f with Some _ => false | None => true end.

(** The file input: [disabled={isUploading || !isApiConfigured}] *)
Definition inputDisabled (configured : bool) (s : App.State) : bool :=
  (App.isUploading s || negb configured)%bool.

(** The textarea: [disabled={!originalImageFile || !isApiConfigured}] *)
Definition promptDisabled (configured : bool) (s : App.State) : bool :=
  (no_file (App.originalImageFile s) || negb configured)%bool.

(** The button:
    [disabled={!originalImageFile || !prompt.trim() || isLoading || !isApiConfigured}] *)
Definition submitDisabled (configured : bool) (s : App.State) : bool :=
  (no_file (App.originalImageFile s)
   || negb (truthy_string (trim (App.prompt s)))
   || App.isLoading s
   || negb configured)%bool.

(** The props given to [ImageDisplay]. *)
Definition displayProps (s : App.State) : ImageDisplay.Props :=
  {| ImageDisplay.title := js "Edited Image";
     ImageDisplay.imageUrl := App.editedImageUrl s;
     ImageDisplay.isLoading := App.isLoading s;
     ImageDisplay.hasContent := negb (no_file (App.originalImageFile s)) |}.

End AppView.

(** ** The two revisions side by side *)

(** The state of the earlier revision that shows the same thing. *)
Definition legacy_of (s : App.State) : AppLegacy.State :=
  {| AppLegacy.originalImageFile := App.originalImageFile s;
     AppLegacy.prompt := App.prompt s;
     AppLegacy.editedImageUrl := App.editedImageUrl s;
     AppLegacy.isLoading := App.isLoading s;
     AppLegacy.isUploading := App.isUploading s;
     AppLegacy.error := App.runtimeError s |}.

(** ** A session with the component

    The events the page can deliver, each enabled as the [disabled]
    attributes of its control say; the timer of [handleImageChange] and the
    promise of [handleSubmit] are delivered later, other events in between. *)

(** The two tests of the timer callback, both passed. *)
Definition valid_file (f : File) : bool :=
  (negb (N.ltb MAX_SIZE (file_size f)) && includes allowedTypes (file_type f))%bool.

Definition starts_with (p s : jsstring) : bool :=
  match strip_prefix p s with Some _ => true | None => false end.

Module Session.

Record Sys := mkSys {
  ui : App.State;
  timers : list File;                   (* pending setTimeout callbacks *)
  inflight : list (Outcome jsstring);   (* pending editImageWithAI promises *)
  submitted : list (File * jsstring)    (* the calls of editImageWithAI so far *)
}.

Definition init : Sys :=
  {| ui := App.initial; timers := []; inflight := []; submitted := [] |}.

Inductive Action :=
| SelectFile (f : File)
| TimerFires
| EditPrompt (v : jsstring)
| ClickSubmit (reader : File -> ReadResult)
              (service : GenerateContentParameters -> Outcome GenerateContentResponse)
| Settle.

(** One event; [None] when its control is disabled or nothing is pending. *)
Definition step (key : option jsstring) (a : Action) (x : Sys) : option Sys :=
  match a with
  | SelectFile f =>
      if AppView.inputDisabled (truthy key) (ui x) then None
      else Some {| ui := App.handleImageChange_select (ui x);
                   timers := timers x ++ [f];
                   inflight := inflight x;
                   submitted := submitted x |}
  | TimerFires =>
      match timers x with
      | f :: rest =>
          Some {| ui := App.handleImageChange_timeout f (ui x);
                  timers := rest;
                  inflight := inflight x;
                  submitted := submitted x |}
      | [] => None
      end
  | EditPrompt v =>
      if AppView.promptDisabled (truthy key) (ui x) then None
      else Some {| ui := App.setPrompt v (ui x);
                   timers := timers x;
                   inflight := inflight x;
                   submitted := submitted x |}
  | ClickSubmit reader service =>
      if AppView.submitDisabled (truthy key) (ui x) then None
      else
        match App.handleSubmit_begin (truthy key) (ui x) with
        | (s1, None) =>
            Some {| ui := s1; timers := timers x;
                    inflight := inflight x; submitted := submitted x |}
        | (s1, Some (file, p)) =>
            let env := {| API_KEY := key; readAsDataURL := reader;
                          generateContent := service |} in
            Some {| ui := s1; timers := timers x;
                    inflight := inflight x ++ [fst (run (editImageWithAI env file p))];
                    submitted := submitted x ++ [(file, p)] |}
        end
  | Settle =>
      match inflight x with
      | o :: rest =>
          Some {| ui := fst (App.handleSubmit_settle o (ui x));
                  timers := timers x;
                  inflight := rest;
                  submitted := submitted x |}
      | [] => None
      end
  end.

Fixpoint steps (key : option jsstring) (actions : list Action) (x : Sys)
    : option Sys :=
  match actions with
  | [] => Some x
  | a :: rest =>
      match step key a x with
      | Some y => steps key rest y
      | None => None
      end
  end.

Definition reachable (key : option jsstring) (x : Sys) : Prop :=
  exists actions, steps key actions init = Some x.

End Session.

(** What a pending promise of [editImageWithAI] will deliver: a data URL or
    an [Error]. *)
Definition outcome_ok (o : Outcome jsstring) : Prop :=
  match o with
  | Return url => starts_with (js "data:") url = true
  | Throw e => instanceof_Error e = true
  end.

(** What [handleSubmit] hands to [editImageWithAI]: a file that passed both
    tests and a prompt that is not blank. *)
Definition submission_ok (c : File * jsstring) : Prop :=
  valid_file (fst c) = true /\ truthy_string (trim (snd c)) = true.

(** The invariant of a session. *)
Definition session_ok (x : Session.Sys) : Prop :=
  (forall f, App.originalImageFile (Session.ui x) = Some f -> valid_file f = true)
  /\ ((Session.timers x = [] /\ App.isUploading (Session.ui x) = false)
      \/ (exists f, Session.timers x = [f])
         /\ App.isUploading (Session.ui x) = true)
  /\ ((Session.inflight x = [] /\ App.isLoading (Session.ui x) = false)
      \/ (exists o, Session.inflight x = [o])
         /\ App.isLoading (Session.ui x) = true)
  /\ Forall outcome_ok (Session.inflight x)
  /\ Forall submission_ok (Session.submitted x)
  /\ (forall url, App.editedImageUrl (Session.ui x) = Some url ->
                  starts_with (js "data:") url = true).

(** More sample data. *)

Definition exact_png : File :=
  {| file_name := js "edge.png"; file_type := js "image/png"; file_size := (4 * MiB)%N |}.
Definition small_gif : File :=
  {| file_name := js "anim.gif"; file_type := js "image/gif"; file_size := 1024%N |}.

Definition service_image (_ : GenerateContentParameters)
    : Outcome GenerateContentResponse :=
  Return (response_of (Some png_blob) (Some (js "STOP"))).
Definition service_down (_ : GenerateContentParameters)
    : Outcome GenerateContentResponse :=
  Throw (JsError (js "TypeError") (js "Failed to fetch")).

(** * Theorems *)

(** ** Strings *)

Lemma jsstring_eqb_eq : forall a b, jsstring_eqb a b = true <-> a = b.
Proof.
  intros a b. unfold jsstring_eqb.
  destruct (list_eq_dec N.eq_dec a b); split; congruence.
Qed.

Lemma jsstring_eqb_neq : forall a b, jsstring_eqb a b = false <-> a <> b.
Proof.
  intros a b. unfold jsstring_eqb.
  destruct (list_eq_dec N.eq_dec a b); split; congruence.
Qed.

Lemma truthy_string_nonempty : forall s, truthy_string s = true <-> s <> [].
Proof.
  intros [|c s]; simpl; split; congruence.
Qed.

(** ** The service: one run, case by case *)

Lemma encode_read_error :
  forall env imageFile ev tr,
    readAsDataURL env imageFile = ReadError ev ->
    encode env imageFile tr
    = (Throw (new_Error MSG_READ_FAILURE),
       tr ++ [EvReadAsDataURL imageFile;
              EvConsoleError (js "Error reading file:") ev]).
Proof.
  intros env imageFile ev tr Hread.
  unfold encode, try_catch, fileToBase64, bind, emit, throw.
  rewrite Hread. rewrite <- app_assoc. reflexivity.
Qed.

Lemma encode_loaded :
  forall env imageFile result tr,
    readAsDataURL env imageFile = Loaded result ->
    encode env imageFile tr
    = (Return (nth_error (split_on COMMA result) 1),
       tr ++ [EvReadAsDataURL imageFile]).
Proof.
  intros env imageFile result tr Hread.
  unfold encode, try_catch, fileToBase64, bind, emit, ret.
  rewrite Hread. reflexivity.
Qed.

(** Unfold the monad down to matches on the environment. *)
Ltac step_run :=
  cbv beta iota zeta
      delta [run editImageWithAI encode try_catch bind fileToBase64 emit throw
             await ret negb app].

Section ServiceRun.
Variable env : Env.
Variable imageFile : File.
Variable prompt : jsstring.

Lemma run_not_configured :
  truthy (API_KEY env) = false ->
  run (editImageWithAI env imageFile prompt)
  = (Throw (new_Error MSG_NOT_CONFIGURED), []).
Proof.
  intros Hkey. unfold run, editImageWithAI.
  rewrite Hkey. reflexivity.
Qed.

Hypothesis configured : truthy (API_KEY env) = true.

Lemma run_read_error :
  forall ev,
    readAsDataURL env imageFile = ReadError ev ->
    run (editImageWithAI env imageFile prompt)
    = (Throw (new_Error MSG_READ_FAILURE),
       [EvReadAsDataURL imageFile; EvConsoleError (js "Error reading file:") ev]).
Proof.
  intros ev Hread.
  step_run. rewrite configured. step_run. rewrite Hread. reflexivity.
Qed.

Lemma run_service_throw :
  forall result v,
    readAsDataURL env imageFile = Loaded result ->
    generateContent env (sent_request imageFile prompt result) = Throw v ->
    run (editImageWithAI env imageFile prompt)
    = (Throw (if instanceof_Error v then v else new_Error MSG_UNKNOWN_SERVICE),
       [EvReadAsDataURL imageFile; EvGenerateContent (sent_request imageFile prompt result);
        EvConsoleError (js "Error calling AI service:") v]).
Proof.
  intros result v Hread Hcall.
  step_run. rewrite configured. step_run. rewrite Hread. step_run.
  unfold sent_request in Hcall. rewrite Hcall.
  destruct (instanceof_Error v); reflexivity.
Qed.

Lemma run_service_response :
  forall result response,
    readAsDataURL env imageFile = Loaded result ->
    generateContent env (sent_request imageFile prompt result) = Return response ->
    run (editImageWithAI env imageFile prompt)
    = match interpret response
              [EvReadAsDataURL imageFile; EvGenerateContent (sent_request imageFile prompt result)] with
      | (Return url, tr) => (Return url, tr)
      | (Throw v, tr) =>
          (Throw (if instanceof_Error v then v else new_Error MSG_UNKNOWN_SERVICE),
           tr ++ [EvConsoleError (js "Error calling AI service:") v])
      end.
Proof.
  intros result response Hread Hcall.
  step_run. rewrite configured. step_run. rewrite Hread. step_run.
  unfold sent_request in Hcall. rewrite Hcall.
  destruct (interpret response _) as [[url|v] tr]; [reflexivity|].
  destruct (instanceof_Error v); reflexivity.
Qed.
End ServiceRun.

(** ** Interpretation of a response *)

Lemma interpret_image :
  forall response blob tr,
    inlineImage response = Some blob ->
    interpret response tr
    = (Return (js "data:" ++ template (mimeType blob) ++ js ";base64,"
               ++ template (data blob)), tr).
Proof.
  intros response blob tr H. unfold interpret. rewrite H. reflexivity.
Qed.

Lemma interpret_no_image :
  forall response tr,
    inlineImage response = None ->
    interpret response tr
    = (Throw (new_Error (if finishedForSafety response
                         then MSG_SAFETY_BLOCKED else MSG_NO_IMAGE)), tr).
Proof.
  intros response tr H. unfold interpret. rewrite H.
  destruct (finishedForSafety response); reflexivity.
Qed.

Lemma finishedForSafety_true :
  forall response c,
    firstCandidate response = Some c ->
    finishReason c = Some (js "SAFETY") ->
    finishedForSafety response = true.
Proof.
  intros response c Hc Hr. unfold finishedForSafety. rewrite Hc, Hr.
  apply jsstring_eqb_eq. reflexivity.
Qed.

Lemma finishedForSafety_false :
  forall response,
    (forall c, firstCandidate response = Some c ->
               finishReason c <> Some (js "SAFETY")) ->
    finishedForSafety response = false.
Proof.
  intros response H. unfold finishedForSafety.
  destruct (firstCandidate response) as [c|]; [|reflexivity].
  specialize (H c eq_refl).
  destruct (finishReason c) as [r|]; [|reflexivity].
  apply jsstring_eqb_neq. congruence.
Qed.

(** Every rejection of [editImageWithAI] carries an [Error]. *)
Lemma editImageWithAI_rejects_with_Error :
  forall env imageFile prompt v tr,
    run (editImageWithAI env imageFile prompt) = (Throw v, tr) ->
    instanceof_Error v = true.
Proof.
  intros env imageFile prompt v tr.
  destruct (truthy (API_KEY env)) eqn:Hkey.
  - destruct (readAsDataURL env imageFile) as [result|ev] eqn:Hread.
    + destruct (generateContent env (sent_request imageFile prompt result))
        as [response|w] eqn:Hcall.
      * rewrite (@run_service_response env imageFile prompt Hkey result response Hread Hcall).
        unfold interpret.
        destruct (inlineImage response); [discriminate|].
        destruct (finishedForSafety response); simpl;
          intros H; inversion H; reflexivity.
      * rewrite (@run_service_throw env imageFile prompt Hkey result w Hread Hcall).
        destruct (instanceof_Error w) eqn:Hw; intros H; inversion H; subst; auto.
    + rewrite (@run_read_error env imageFile prompt Hkey ev Hread).
      intros H; inversion H; reflexivity.
  - rewrite (@run_not_configured env imageFile prompt Hkey).
    intros H; inversion H; reflexivity.
Qed.

(** A file that cannot be read never reaches the service, configured or
    not. *)
Lemma unreadable_file_never_sent :
  forall env imageFile prompt ev,
    readAsDataURL env imageFile = ReadError ev ->
    existsb is_network_call (snd (run (editImageWithAI env imageFile prompt)))
    = false.
Proof.
  intros env imageFile prompt ev Hread.
  destruct (truthy (API_KEY env)) eqn:Hkey.
  - rewrite (@run_read_error env imageFile prompt Hkey ev Hread). reflexivity.
  - rewrite (@run_not_configured env imageFile prompt Hkey). reflexivity.
Qed.

(** ** The service: the claims *)

(** C1: when the first part of the first candidate of the response carries
    inline data with data [d] and media type [m], the interpretation returns
    the data URI [data:<m>;base64,<d>], and so does every run of
    [editImageWithAI] that received this response; the finish reason is not
    looked at, so a response that also says SAFETY gives the same result
    (the witness is such a response). *)
Theorem image_takes_precedence :
  forall response part d m,
    firstPart response = Some part ->
    inlineData part = Some {| data := Some d; mimeType := Some m |} ->
    (forall tr,
        interpret response tr
        = (Return (js "data:" ++ m ++ js ";base64," ++ d), tr))
    /\ (forall env imageFile prompt result,
           truthy (API_KEY env) = true ->
           readAsDataURL env imageFile = Loaded result ->
           generateContent env (sent_request imageFile prompt result)
           = Return response ->
           run (editImageWithAI env imageFile prompt)
           = (Return (js "data:" ++ m ++ js ";base64," ++ d),
              [EvReadAsDataURL imageFile;
               EvGenerateContent (sent_request imageFile prompt result)])).
Proof.
  intros response part d m Hpart Hinl.
  assert (Himg : inlineImage response
                 = Some {| data := Some d; mimeType := Some m |}).
  { unfold inlineImage. rewrite Hpart. exact Hinl. }
  split.
  - intros tr. rewrite (interpret_image _ tr Himg). reflexivity.
  - intros env imageFile prompt result Hkey Hread Hcall.
    rewrite (@run_service_response env imageFile prompt Hkey result response Hread Hcall).
    rewrite (interpret_image _ _ Himg). reflexivity.
Qed.

Lemma image_takes_precedence_witness :
  finishedForSafety response_image_and_safety = true
  /\ run (editImageWithAI (env_of a_key reader_ok (Return response_image_and_safety))
                          cat_png a_prompt)
     = (Return (js "data:" ++ js "image/png" ++ js ";base64," ++ js "iVBORw0KGgo="),
        [EvReadAsDataURL cat_png;
         EvGenerateContent (sent_request cat_png a_prompt (js "data:image/png;base64,QUJD"))]).
Proof.
  split; [reflexivity|].
  exact (proj2 (@image_takes_precedence
                  response_image_and_safety
                  {| inlineData := Some png_blob; text := None |}
                  (js "iVBORw0KGgo=") (js "image/png")
                  eq_refl eq_refl)
               (env_of a_key reader_ok (Return response_image_and_safety))
               cat_png a_prompt (js "data:image/png;base64,QUJD")
               eq_refl eq_refl eq_refl).
Defined.

(** C2: whenever the credential is absent (undefined or the empty string,
    the falsy values of [process.env.API_KEY]), [editImageWithAI] rejects
    with the not-configured error and its trace is empty: no file was read
    and no request was issued, whatever the file, the prompt, the reader and
    the service would have done (a file that cannot be read included). *)
Theorem editImageWithAI_not_configured :
  forall env imageFile prompt,
    truthy (API_KEY env) = false ->
    run (editImageWithAI env imageFile prompt)
    = (Throw (new_Error MSG_NOT_CONFIGURED), []).
Proof.
  intros env imageFile prompt Hkey.
  exact (@run_not_configured env imageFile prompt Hkey).
Qed.

Lemma editImageWithAI_not_configured_witness :
  run (editImageWithAI (env_of None reader_broken (Throw (JsString (js "offline"))))
                       cat_png a_prompt)
  = (Throw (new_Error MSG_NOT_CONFIGURED), [])
  /\ run (editImageWithAI (env_of (Some []) reader_ok (Return response_image_and_safety))
                          big_jpeg [])
     = (Throw (new_Error MSG_NOT_CONFIGURED), []).
Proof.
  split.
  - exact (@editImageWithAI_not_configured
             (env_of None reader_broken (Throw (JsString (js "offline"))))
             cat_png a_prompt eq_refl).
  - exact (@editImageWithAI_not_configured
             (env_of (Some []) reader_ok (Return response_image_and_safety))
             big_jpeg [] eq_refl).
Defined.

(** C3: when the call to the service throws [v], [editImageWithAI] logs it
    and rejects: with [v] itself when [v] is an [Error] (the cause, its
    message included, travels unchanged), and with a new [Error] carrying the
    generic message otherwise.  The request had been issued once. *)
Theorem transport_failure :
  forall env imageFile prompt result v,
    truthy (API_KEY env) = true ->
    readAsDataURL env imageFile = Loaded result ->
    generateContent env (sent_request imageFile prompt result) = Throw v ->
    run (editImageWithAI env imageFile prompt)
    = (Throw (match v with
              | JsError _ _ => v
              | _ => new_Error
                       (js "An unknown error occurred while communicating with the AI service.")
              end),
       [EvReadAsDataURL imageFile;
        EvGenerateContent (sent_request imageFile prompt result);
        EvConsoleError (js "Error calling AI service:") v]).
Proof.
  intros env imageFile prompt result v Hkey Hread Hcall.
  rewrite (@run_service_throw env imageFile prompt Hkey result v Hread Hcall).
  destruct v; reflexivity.
Qed.

Lemma transport_failure_witness :
  fst (run (editImageWithAI
              (env_of a_key reader_ok (Throw (JsError (js "ApiError") (js "429 quota exceeded"))))
              cat_png a_prompt))
  = Throw (JsError (js "ApiError") (js "429 quota exceeded"))
  /\ fst (run (editImageWithAI
                 (env_of a_key reader_ok (Throw JsUndefined)) cat_png a_prompt))
     = Throw (new_Error MSG_UNKNOWN_SERVICE).
Proof.
  split.
  - exact (f_equal fst
             (@transport_failure
                (env_of a_key reader_ok (Throw (JsError (js "ApiError") (js "429 quota exceeded"))))
                cat_png a_prompt (js "data:image/png;base64,QUJD")
                (JsError (js "ApiError") (js "429 quota exceeded"))
                eq_refl eq_refl eq_refl)).
  - exact (f_equal fst
             (@transport_failure
                (env_of a_key reader_ok (Throw JsUndefined))
                cat_png a_prompt (js "data:image/png;base64,QUJD")
                JsUndefined eq_refl eq_refl eq_refl)).
Defined.

(** C4: a response without inline data in the first part of its first
    candidate (or without such a part) whose first candidate finished with
    reason SAFETY is interpreted as the safety-block error, and every run of
    [editImageWithAI] that received it rejects with that error; its message
    is not the no-image message. *)
Theorem safety_block_reported :
  forall response candidate,
    inlineImage response = None ->
    firstCandidate response = Some candidate ->
    finishReason candidate = Some (js "SAFETY") ->
    (forall tr, interpret response tr = (Throw (new_Error MSG_SAFETY_BLOCKED), tr))
    /\ (forall env imageFile prompt result,
           truthy (API_KEY env) = true ->
           readAsDataURL env imageFile = Loaded result ->
           generateContent env (sent_request imageFile prompt result)
           = Return response ->
           run (editImageWithAI env imageFile prompt)
           = (Throw (new_Error MSG_SAFETY_BLOCKED),
              [EvReadAsDataURL imageFile;
               EvGenerateContent (sent_request imageFile prompt result);
               EvConsoleError (js "Error calling AI service:")
                              (new_Error MSG_SAFETY_BLOCKED)]))
    /\ MSG_SAFETY_BLOCKED <> MSG_NO_IMAGE.
Proof.
  intros response candidate Himg Hcand Hreason.
  pose proof (finishedForSafety_true response Hcand Hreason) as Hsafe.
  split; [|split].
  - intros tr. rewrite (interpret_no_image _ tr Himg), Hsafe. reflexivity.
  - intros env imageFile prompt result Hkey Hread Hcall.
    rewrite (@run_service_response env imageFile prompt Hkey result response Hread Hcall).
    rewrite (interpret_no_image _ _ Himg), Hsafe. reflexivity.
  - apply jsstring_eqb_neq. vm_compute. reflexivity.
Qed.

Lemma safety_block_reported_witness :
  fst (run (editImageWithAI (env_of a_key reader_ok (Return response_safety))
                            cat_png a_prompt))
  = Throw (new_Error MSG_SAFETY_BLOCKED).
Proof.
  exact (f_equal fst
           (proj1 (proj2
              (@safety_block_reported
                 response_safety
                 {| content := Some {| parts := Some [ {| inlineData := None; text := None |} ] |};
                    finishReason := Some (js "SAFETY") |}
                 eq_refl eq_refl eq_refl))
              (env_of a_key reader_ok (Return response_safety))
              cat_png a_prompt (js "data:image/png;base64,QUJD")
              eq_refl eq_refl eq_refl)).
Defined.

(** C5: a response without inline data in the first part of its first
    candidate and on which the safety test of the source is false (the first
    candidate is missing or finished with another reason) is interpreted as
    the no-image error, and every run of [editImageWithAI] that received it
    rejects with that error. *)
Theorem no_image_reported :
  forall response,
    inlineImage response = None ->
    finishedForSafety response = false ->
    (forall tr, interpret response tr = (Throw (new_Error MSG_NO_IMAGE), tr))
    /\ (forall env imageFile prompt result,
           truthy (API_KEY env) = true ->
           readAsDataURL env imageFile = Loaded result ->
           generateContent env (sent_request imageFile prompt result)
           = Return response ->
           run (editImageWithAI env imageFile prompt)
           = (Throw (new_Error
                       (js "The AI did not return an image. Please try a different prompt.")),
              [EvReadAsDataURL imageFile;
               EvGenerateContent (sent_request imageFile prompt result);
               EvConsoleError (js "Error calling AI service:")
                              (new_Error MSG_NO_IMAGE)])).
Proof.
  intros response Himg Hsafe.
  split.
  - intros tr. rewrite (interpret_no_image _ tr Himg), Hsafe. reflexivity.
  - intros env imageFile prompt result Hkey Hread Hcall.
    rewrite (@run_service_response env imageFile prompt Hkey result response Hread Hcall).
    rewrite (interpret_no_image _ _ Himg), Hsafe. reflexivity.
Qed.

Lemma no_image_reported_witness :
  fst (run (editImageWithAI (env_of a_key reader_ok (Return response_stop))
                            cat_png a_prompt))
  = Throw (new_Error MSG_NO_IMAGE)
  /\ fst (run (editImageWithAI (env_of a_key reader_ok (Return response_empty))
                               cat_png a_prompt))
     = Throw (new_Error MSG_NO_IMAGE).
Proof.
  split.
  - exact (f_equal fst
             (proj2 (@no_image_reported response_stop eq_refl eq_refl)
                    (env_of a_key reader_ok (Return response_stop))
                    cat_png a_prompt (js "data:image/png;base64,QUJD")
                    eq_refl eq_refl eq_refl)).
  - exact (f_equal fst
             (proj2 (@no_image_reported response_empty eq_refl eq_refl)
                    (env_of a_key reader_ok (Return response_empty))
                    cat_png a_prompt (js "data:image/png;base64,QUJD")
                    eq_refl eq_refl eq_refl)).
Defined.

(** C7: a file whose read fails makes the encoding step throw the
    read-failure error after the read and its log entry; a run of
    [editImageWithAI] that reaches the read (the credential check passed)
    rejects with that error, and no run on such a file issues a request to
    the service.  The message differs from the three the service path
    creates (generic transport fallback, safety block, no image). *)
Theorem read_failure_is_local :
  forall env imageFile ev,
    readAsDataURL env imageFile = ReadError ev ->
    (forall tr,
        encode env imageFile tr
        = (Throw (new_Error
                    (js "Failed to read image file. It may be corrupted or in an unsupported format.")),
           tr ++ [EvReadAsDataURL imageFile;
                  EvConsoleError (js "Error reading file:") ev]))
    /\ (forall prompt,
           truthy (API_KEY env) = true ->
           run (editImageWithAI env imageFile prompt)
           = (Throw (new_Error MSG_READ_FAILURE),
              [EvReadAsDataURL imageFile;
               EvConsoleError (js "Error reading file:") ev]))
    /\ (forall prompt,
           existsb is_network_call
                   (snd (run (editImageWithAI env imageFile prompt))) = false)
    /\ MSG_READ_FAILURE <> MSG_UNKNOWN_SERVICE
    /\ MSG_READ_FAILURE <> MSG_SAFETY_BLOCKED
    /\ MSG_READ_FAILURE <> MSG_NO_IMAGE.
Proof.
  intros env imageFile ev Hread.
  split; [|split; [|split]].
  - intros tr. exact (encode_read_error env imageFile tr Hread).
  - intros prompt Hkey.
    exact (@run_read_error env imageFile prompt Hkey ev Hread).
  - intros prompt.
    exact (unreadable_file_never_sent env imageFile prompt Hread).
  - repeat split; apply jsstring_eqb_neq; vm_compute; reflexivity.
Qed.

Lemma read_failure_is_local_witness :
  run (editImageWithAI (env_of a_key reader_broken (Return response_image_and_safety))
                       cat_png a_prompt)
  = (Throw (new_Error MSG_READ_FAILURE),
     [EvReadAsDataURL cat_png;
      EvConsoleError (js "Error reading file:") (JsEvent (js "error"))]).
Proof.
  exact (proj1 (proj2 (@read_failure_is_local
                         (env_of a_key reader_broken (Return response_image_and_safety))
                         cat_png (JsEvent (js "error")) eq_refl))
               a_prompt eq_refl).
Defined.

(** ** The component: selecting a file *)

Lemma MAX_SIZE_value : MAX_SIZE = 4194304%N.
Proof. reflexivity. Qed.

Lemma too_large_timeout :
  forall file s,
    (MAX_SIZE < file_size file)%N ->
    App.handleImageChange_timeout file s
    = App.setIsUploading false (App.setRuntimeError (Some MSG_TOO_LARGE) s).
Proof.
  intros file s Hsize. unfold App.handleImageChange_timeout.
  apply N.ltb_lt in Hsize. rewrite Hsize. reflexivity.
Qed.

Lemma too_large_timeout_legacy :
  forall file s,
    (MAX_SIZE < file_size file)%N ->
    AppLegacy.handleImageChange_timeout file s
    = AppLegacy.setIsUploading false (AppLegacy.setError (Some MSG_TOO_LARGE) s).
Proof.
  intros file s Hsize. unfold AppLegacy.handleImageChange_timeout.
  apply N.ltb_lt in Hsize. rewrite Hsize. reflexivity.
Qed.

(** C6: a selected file of more than 4 MiB ends [handleImageChange] with
    the too-large message as error and no file accepted, whatever its type
    and whatever the state before; a submission from that state stops at its
    guard, so the file never reaches [editImageWithAI].  Both revisions of
    the component. *)
Theorem oversized_file_rejected :
  forall file,
    (4 * 1024 * 1024 < file_size file)%N ->
    (forall s,
        App.handleImageChange (Some file) s
        = {| App.originalImageFile := None;
             App.prompt := App.prompt s;
             App.editedImageUrl := None;
             App.isLoading := App.isLoading s;
             App.isUploading := false;
             App.runtimeError := Some MSG_TOO_LARGE |}
        /\ forall configured,
             snd (App.handleSubmit_begin configured
                    (App.handleImageChange (Some file) s)) = None)
    /\ (forall s,
           AppLegacy.handleImageChange (Some file) s
           = {| AppLegacy.originalImageFile := None;
                AppLegacy.prompt := AppLegacy.prompt s;
                AppLegacy.editedImageUrl := None;
                AppLegacy.isLoading := AppLegacy.isLoading s;
                AppLegacy.isUploading := false;
                AppLegacy.error := Some MSG_TOO_LARGE |}
           /\ snd (AppLegacy.handleSubmit_begin
                     (AppLegacy.handleImageChange (Some file) s)) = None).
Proof.
  intros file Hsize. change (MAX_SIZE < file_size file)%N in Hsize.
  split; intros s.
  - assert (E : App.handleImageChange (Some file) s
                = {| App.originalImageFile := None;
                     App.prompt := App.prompt s;
                     App.editedImageUrl := None;
                     App.isLoading := App.isLoading s;
                     App.isUploading := false;
                     App.runtimeError := Some MSG_TOO_LARGE |}).
    { unfold App.handleImageChange. rewrite (too_large_timeout file _ Hsize).
      reflexivity. }
    split; [exact E|].
    intros configured. rewrite E. unfold App.handleSubmit_begin.
    destruct configured; reflexivity.
  - assert (E : AppLegacy.handleImageChange (Some file) s
                = {| AppLegacy.originalImageFile := None;
                     AppLegacy.prompt := AppLegacy.prompt s;
                     AppLegacy.editedImageUrl := None;
                     AppLegacy.isLoading := AppLegacy.isLoading s;
                     AppLegacy.isUploading := false;
                     AppLegacy.error := Some MSG_TOO_LARGE |}).
    { unfold AppLegacy.handleImageChange.
      rewrite (too_large_timeout_legacy file _ Hsize). reflexivity. }
    split; [exact E|].
    rewrite E. reflexivity.
Qed.

Lemma oversized_file_rejected_witness :
  App.runtimeError (App.handleImageChange (Some big_jpeg) App.initial)
  = Some MSG_TOO_LARGE
  /\ App.handleImageChange (Some big_text) cat_loaded
     = {| App.originalImageFile := None; App.prompt := a_prompt;
          App.editedImageUrl := None; App.isLoading := false;
          App.isUploading := false;
          App.runtimeError := Some MSG_TOO_LARGE |}.
Proof.
  split.
  - exact (f_equal App.runtimeError
             (proj1 (proj1 (@oversized_file_rejected big_jpeg eq_refl) App.initial))).
  - exact (proj1 (proj1 (@oversized_file_rejected big_text eq_refl) cat_loaded)).
Defined.

(** ** The component: submitting *)

Lemma ui_step_keeps_no_image :
  forall ev s,
    App.editedImageUrl s = None ->
    App.editedImageUrl (ui_step s ev) = None.
Proof.
  intros [|file|v] s H; simpl.
  - reflexivity.
  - unfold App.handleImageChange_timeout.
    destruct (N.ltb _ _); [exact H|].
    destruct (negb _); exact H.
  - exact H.
Qed.

Lemma ui_steps_keep_no_image :
  forall evs s,
    App.editedImageUrl s = None ->
    App.editedImageUrl (fold_left ui_step evs s) = None.
Proof.
  induction evs as [|ev evs IH]; intros s H; simpl.
  - exact H.
  - apply IH. apply ui_step_keeps_no_image. exact H.
Qed.

(** A rejected submission ends without a result image also when file
    selections and prompt edits are handled while the promise is pending. *)
Lemma failed_submission_interleaved :
  forall (editImage : File -> jsstring -> M jsstring) evs s file e tr,
    App.originalImageFile s = Some file ->
    truthy_string (trim (App.prompt s)) = true ->
    run (editImage file (App.prompt s)) = (Throw e, tr) ->
    let s' := fst (handleSubmit_interleaved editImage true evs s) in
    App.editedImageUrl s' = None
    /\ App.runtimeError s' = Some (errorMessage_of e)
    /\ App.isLoading s' = false.
Proof.
  intros editImage evs s file e tr Hfile Hprompt Hrun.
  unfold handleSubmit_interleaved, App.handleSubmit_begin.
  rewrite Hfile, Hprompt. cbn [negb]. rewrite Hrun.
  cbn [App.handleSubmit_settle fst].
  repeat split.
  cbn [App.setIsLoading App.setRuntimeError App.editedImageUrl].
  apply ui_steps_keep_no_image. reflexivity.
Qed.

(** C10: when the call of [handleSubmit] to [editImageWithAI] rejects with
    [e], the handler ends in the state it started from except that the
    result image is null, the error slot holds the message of [e] (the
    fixed unknown-error text when [e] is not an [Error]) and [isLoading] is
    false; [e] was logged after the call's own trace.  Both revisions of the
    component, for any implementation of the imported function. *)
Theorem failed_submission_shows_no_image :
  forall (editImage : File -> jsstring -> M jsstring)
         file p url loading uploading err e tr,
    truthy_string (trim p) = true ->
    run (editImage file p) = (Throw e, tr) ->
    App.handleSubmit_with editImage true
      {| App.originalImageFile := Some file; App.prompt := p;
         App.editedImageUrl := url; App.isLoading := loading;
         App.isUploading := uploading; App.runtimeError := err |}
    = ({| App.originalImageFile := Some file; App.prompt := p;
          App.editedImageUrl := None; App.isLoading := false;
          App.isUploading := uploading;
          App.runtimeError :=
            Some (match e with
                  | JsError _ message => message
                  | _ => js "An unknown error occurred."
                  end) |},
       tr ++ [EvConsoleError [] e])
    /\ AppLegacy.handleSubmit_with editImage
         {| AppLegacy.originalImageFile := Some file; AppLegacy.prompt := p;
            AppLegacy.editedImageUrl := url; AppLegacy.isLoading := loading;
            AppLegacy.isUploading := uploading; AppLegacy.error := err |}
       = ({| AppLegacy.originalImageFile := Some file; AppLegacy.prompt := p;
             AppLegacy.editedImageUrl := None; AppLegacy.isLoading := false;
             AppLegacy.isUploading := uploading;
             AppLegacy.error :=
               Some (match e with
                     | JsError _ message => message
                     | _ => js "An unknown error occurred."
                     end) |},
          tr ++ [EvConsoleError [] e]).
Proof.
  intros editImage file p url loading uploading err e tr Hprompt Hrun.
  split.
  - unfold App.handleSubmit_with, App.handleSubmit_begin.
    cbn [negb App.originalImageFile App.prompt].
    rewrite Hprompt, Hrun. reflexivity.
  - unfold AppLegacy.handleSubmit_with, AppLegacy.handleSubmit_begin.
    cbn [AppLegacy.originalImageFile AppLegacy.prompt].
    rewrite Hprompt, Hrun. reflexivity.
Qed.

Lemma failed_submission_shows_no_image_witness :
  fst (App.handleSubmit (env_of a_key reader_ok (Return response_safety)) cat_loaded)
  = {| App.originalImageFile := Some cat_png; App.prompt := a_prompt;
       App.editedImageUrl := None; App.isLoading := false;
       App.isUploading := false;
       App.runtimeError := Some MSG_SAFETY_BLOCKED |}
  /\ App.runtimeError
       (fst (App.handleSubmit_with (fun _ _ => throw (JsString (js "boom"))) true
               cat_loaded))
     = Some (js "An unknown error occurred.").
Proof.
  split.
  - exact (f_equal fst
             (proj1 (@failed_submission_shows_no_image
                       (editImageWithAI (env_of a_key reader_ok (Return response_safety)))
                       cat_png a_prompt (Some (js "data:image/png;base64,b2xk"))
                       false false None
                       (new_Error MSG_SAFETY_BLOCKED)
                       [EvReadAsDataURL cat_png;
                        EvGenerateContent
                          (sent_request cat_png a_prompt (js "data:image/png;base64,QUJD"));
                        EvConsoleError (js "Error calling AI service:")
                                       (new_Error MSG_SAFETY_BLOCKED)]
                       eq_refl eq_refl))).
  - exact (f_equal (fun r => App.runtimeError (fst r))
             (proj1 (@failed_submission_shows_no_image
                       (fun _ _ => throw (JsString (js "boom")))
                       cat_png a_prompt (Some (js "data:image/png;base64,b2xk"))
                       false false None
                       (JsString (js "boom")) [] eq_refl eq_refl))).
Defined.

(** ** The matcher: greedy iteration *)

Lemma strip_prefix_app : forall l s, strip_prefix l (l ++ s) = Some s.
Proof.
  induction l as [|a l IH]; intros s; simpl.
  - destruct s; reflexivity.
  - rewrite N.eqb_refl. apply IH.
Qed.

Lemma strip_prefix_Some :
  forall l s s', strip_prefix l s = Some s' -> s = l ++ s'.
Proof.
  induction l as [|a l IH]; intros s s' H.
  - destruct s; simpl in H; inversion H; reflexivity.
  - destruct s as [|b s]; simpl in H; [discriminate|].
    destruct (N.eqb_spec a b) as [->|]; [|discriminate].
    simpl. f_equal. apply IH. exact H.
Qed.

Lemma strip_prefix_char :
  forall c s,
    strip_prefix [c] s
    = match s with
      | d :: s' => if N.eqb c d then Some s' else None
      | [] => None
      end.
Proof.
  intros c [|d s]; simpl; [reflexivity|].
  destruct (N.eqb c d); [destruct s|]; reflexivity.
Qed.

Lemma firstn_consumed :
  forall (a b : jsstring), firstn (length (a ++ b) - length b) (a ++ b) = a.
Proof.
  intros a b.
  replace (length (a ++ b) - length b) with (length a)
    by (rewrite length_app; lia).
  induction a as [|c a IH]; simpl.
  - destruct b; reflexivity.
  - f_equal. exact IH.
Qed.

Lemma span_spec :
  forall cls s pre rest,
    span cls s = (pre, rest) ->
    s = pre ++ rest /\ forallb cls pre = true /\ stops cls rest.
Proof.
  intros cls. induction s as [|c s IH]; intros pre rest H; simpl in H.
  - inversion H; subst. repeat split.
  - destruct (cls c) eqn:Hc.
    + destruct (span cls s) as [a b] eqn:Hs. inversion H; subst.
      destruct (IH a rest eq_refl) as (E & Ha & Hb).
      simpl. rewrite Hc, Ha. subst s. repeat split. exact Hb.
    + inversion H; subst. simpl. repeat split. exact Hc.
Qed.

Lemma span_app :
  forall cls pre rest,
    forallb cls pre = true -> stops cls rest ->
    span cls (pre ++ rest) = (pre, rest).
Proof.
  intros cls. induction pre as [|c pre IH]; intros rest Hpre Hrest; simpl.
  - destruct rest as [|d rest]; simpl; [reflexivity|].
    simpl in Hrest. rewrite Hrest. reflexivity.
  - simpl in Hpre. apply andb_prop in Hpre. destruct Hpre as [Hc Hpre].
    rewrite Hc, (IH rest Hpre Hrest). reflexivity.
Qed.

Section StarCls.
Variable R : Type.
Variable cls : codeunit -> bool.

Lemma star_cls_stop :
  forall rest (k : jsstring -> option R),
    stops cls rest -> star_cls cls rest k = k rest.
Proof.
  intros [|c rest] k H; simpl; [reflexivity|].
  simpl in H. rewrite H. reflexivity.
Qed.

(** The longest iteration wins when what follows accepts it. *)
Lemma star_cls_greedy :
  forall pre rest (k : jsstring -> option R) r,
    forallb cls pre = true -> stops cls rest ->
    k rest = Some r ->
    star_cls cls (pre ++ rest) k = Some r.
Proof.
  induction pre as [|c pre IH]; intros rest k r Hpre Hrest Hk; simpl.
  - rewrite star_cls_stop by exact Hrest. exact Hk.
  - simpl in Hpre. apply andb_prop in Hpre. destruct Hpre as [Hc Hpre].
    rewrite Hc, (IH rest k r Hpre Hrest Hk). reflexivity.
Qed.

(** When what follows refuses every shorter iteration, only the longest
    one counts. *)
Lemma star_cls_only_longest :
  forall pre rest (k : jsstring -> option R),
    forallb cls pre = true -> stops cls rest ->
    (forall a c b, pre = a ++ c :: b -> k (c :: b ++ rest) = None) ->
    star_cls cls (pre ++ rest) k = k rest.
Proof.
  induction pre as [|c pre IH]; intros rest k Hpre Hrest Hk; simpl.
  - apply star_cls_stop. exact Hrest.
  - simpl in Hpre. apply andb_prop in Hpre. destruct Hpre as [Hc Hpre].
    rewrite Hc. rewrite (IH rest k Hpre Hrest).
    + destruct (k rest); [reflexivity|].
      apply (Hk [] c pre). reflexivity.
    + intros a d b E. apply (Hk (c :: a) d b). simpl. rewrite E. reflexivity.
Qed.

Lemma star_cls_none :
  forall pre rest (k : jsstring -> option R),
    forallb cls pre = true -> stops cls rest ->
    (forall a b, pre = a ++ b -> k (b ++ rest) = None) ->
    star_cls cls (pre ++ rest) k = None.
Proof.
  intros pre rest k Hpre Hrest Hk.
  rewrite star_cls_only_longest; try assumption.
  - apply (Hk pre []). rewrite app_nil_r. reflexivity.
  - intros a c b E. apply (Hk a (c :: b)). exact E.
Qed.

(** An iteration followed by something that always succeeds succeeds. *)
Lemma star_cls_total :
  forall (f : jsstring -> R) s,
    exists x, star_cls cls s (fun s' => Some (f s')) = Some (f x).
Proof.
  intros f. induction s as [|c s IH]; simpl.
  - exists []. reflexivity.
  - destruct (cls c).
    + destruct IH as [x Hx]. rewrite Hx. exists x. reflexivity.
    + exists (c :: s). reflexivity.
Qed.
End StarCls.

(** ** The pattern of [handleDownload] *)

Lemma cls_alnum_subtype : forall c, cls_alnum c = true -> cls_subtype c = true.
Proof.
  intros c H. unfold cls_subtype. rewrite H. reflexivity.
Qed.

Lemma cls_subtype_excludes :
  forall c,
    cls_subtype c = true ->
    N.eqb c COMMA = false /\ N.eqb c SLASH = false /\ is_line_terminator c = false.
Proof.
  intros c H. repeat split.
  - destruct (N.eqb_spec c COMMA) as [->|]; [vm_compute in H; discriminate|reflexivity].
  - destruct (N.eqb_spec c SLASH) as [->|]; [vm_compute in H; discriminate|reflexivity].
  - unfold is_line_terminator.
    destruct (N.eqb_spec c 10) as [->|]; [vm_compute in H; discriminate|].
    destruct (N.eqb_spec c 13) as [->|]; [vm_compute in H; discriminate|].
    destruct (N.eqb_spec c 8232) as [->|]; [vm_compute in H; discriminate|].
    destruct (N.eqb_spec c 8233) as [->|]; [vm_compute in H; discriminate|].
    reflexivity.
Qed.

Lemma comma_on_line_app :
  forall b tail,
    forallb cls_subtype b = true ->
    comma_on_line (b ++ tail) = comma_on_line tail.
Proof.
  induction b as [|c b IH]; intros tail H; simpl; [reflexivity|].
  simpl in H. apply andb_prop in H. destruct H as [Hc Hb].
  destruct (cls_subtype_excludes c Hc) as (Hcomma & _ & Hlt).
  rewrite Hcomma, Hlt. apply IH. exact Hb.
Qed.

(** What follows the group, [.*,.*], succeeds exactly when a comma is on
    the line; it leaves the captures as they are. *)
Lemma exec_after_group :
  forall (G : jsstring -> jsstring) caps t,
    (comma_on_line t = true ->
     exists w,
       exec (Seq (Star cls_dot) (Seq (Lit (js ",")) (Star cls_dot))) t caps
            (fun s' caps' => Some (G s' :: caps'))
       = Some (w :: caps))
    /\ (comma_on_line t = false ->
        exec (Seq (Star cls_dot) (Seq (Lit (js ",")) (Star cls_dot))) t caps
             (fun s' caps' => Some (G s' :: caps'))
        = None).
Proof.
  intros G caps t. cbn [exec]. change (js ",") with [COMMA].
  induction t as [|c t IH].
  - split; intros H; [discriminate|reflexivity].
  - cbn [star_cls comma_on_line].
    destruct (N.eqb_spec c COMMA) as [->|Hc].
    + split; [intros _|discriminate].
      change (cls_dot COMMA) with true. cbn iota.
      destruct (comma_on_line t) eqn:Ht.
      * destruct (proj1 IH eq_refl) as [w Hw]. rewrite Hw. exists w. reflexivity.
      * rewrite (proj2 IH eq_refl).
        rewrite strip_prefix_char, N.eqb_refl.
        destruct (star_cls_total cls_dot (fun s' => G s' :: caps) t) as [x Hx].
        rewrite Hx. exists (G x). reflexivity.
    + assert (Hstrip : strip_prefix [COMMA] (c :: t) = None).
      { rewrite strip_prefix_char. destruct (N.eqb_spec COMMA c); congruence. }
      assert (Hdot : cls_dot c = negb (is_line_terminator c)) by reflexivity.
      rewrite Hdot. destruct (is_line_terminator c); cbn [negb].
      * rewrite Hstrip. split; [discriminate|reflexivity].
      * rewrite Hstrip.
        destruct IH as [IH1 IH2]. split; intros H.
        -- destruct (IH1 H) as [w Hw]. rewrite Hw. exists w. reflexivity.
        -- rewrite (IH2 H). reflexivity.
Qed.

Lemma match_here_MIME :
  forall s,
    match spec_media_type_here s with
    | Some (ty, sub) =>
        exists w, match_here MIME_RE s = Some [w; ty ++ SLASH :: sub]
    | None => match_here MIME_RE s = None
    end.
Proof.
  intros s. unfold spec_media_type_here, match_here, MIME_RE. cbn [exec].
  destruct (strip_prefix (js "data:") s) as [s1|] eqn:Hpre; [|reflexivity].
  destruct (span cls_alnum s1) as [ty s2] eqn:Hty.
  destruct (span_spec _ _ Hty) as (E1 & Hty_all & Hty_stop).
  destruct ty as [|c ty].
  - simpl in E1. subst s2.
    destruct s1 as [|c s1]; [reflexivity|].
    simpl in Hty_stop. rewrite Hty_stop. reflexivity.
  - subst s1. simpl in Hty_all. apply andb_prop in Hty_all.
    destruct Hty_all as [Hc Hty_all].
    cbn [app]. rewrite Hc.
    change (js "/") with [SLASH].
    match goal with
    | |- context [star_cls cls_alnum (ty ++ s2) ?k] =>
        rewrite (@star_cls_only_longest _ cls_alnum ty s2 k Hty_all Hty_stop)
    end.
    2: { intros a d b E. rewrite strip_prefix_char.
         assert (Hd : cls_alnum d = true).
         { subst ty. rewrite forallb_app in Hty_all.
           apply andb_prop in Hty_all. destruct Hty_all as [_ Hty_all].
           simpl in Hty_all. apply andb_prop in Hty_all. tauto. }
         destruct (N.eqb_spec SLASH d) as [<-|]; [|reflexivity].
         vm_compute in Hd. discriminate. }
    rewrite strip_prefix_char.
    destruct s2 as [|c2 s3]; [reflexivity|].
    rewrite (N.eqb_sym SLASH c2).
    destruct (N.eqb_spec c2 SLASH) as [->|]; [|reflexivity].
    destruct (span cls_subtype s3) as [sub tail] eqn:Hsub.
    destruct (span_spec _ _ Hsub) as (E3 & Hsub_all & Hsub_stop).
    destruct sub as [|d sub].
    + simpl in E3. subst s3.
      destruct tail as [|e tail]; [reflexivity|].
      simpl in Hsub_stop. rewrite Hsub_stop. reflexivity.
    + subst s3. simpl in Hsub_all. apply andb_prop in Hsub_all.
      destruct Hsub_all as [Hd Hsub_all].
      cbn [app]. rewrite Hd.
      assert (Hcap :
                firstn (length (c :: ty ++ SLASH :: d :: sub ++ tail) - length tail)
                       (c :: ty ++ SLASH :: d :: sub ++ tail)
                = (c :: ty) ++ SLASH :: d :: sub).
      { assert (E : c :: ty ++ SLASH :: d :: sub ++ tail
                    = ((c :: ty) ++ SLASH :: d :: sub) ++ tail)
          by (simpl; rewrite <- app_assoc; reflexivity).
        rewrite E. apply firstn_consumed. }
      destruct (comma_on_line tail) eqn:Hcol.
      * destruct (proj1 (exec_after_group
                           (fun s' => firstn (length s - length s') s)
                           [firstn (length (c :: ty ++ SLASH :: d :: sub ++ tail)
                                    - length tail)
                                   (c :: ty ++ SLASH :: d :: sub ++ tail)]
                           tail) Hcol) as [w Hw].
        cbn [exec] in Hw. exists w.
        apply star_cls_greedy; [exact Hsub_all|exact Hsub_stop|].
        rewrite <- Hcap. exact Hw.
      * apply star_cls_none; [exact Hsub_all|exact Hsub_stop|].
        intros a b E.
        apply (proj2 (exec_after_group
                        (fun s' => firstn (length s - length s') s)
                        [firstn (length (c :: ty ++ SLASH :: d :: sub ++ tail)
                                 - length (b ++ tail))
                                (c :: ty ++ SLASH :: d :: sub ++ tail)]
                        (b ++ tail))).
        rewrite comma_on_line_app; [exact Hcol|].
        subst sub. rewrite forallb_app in Hsub_all.
        apply andb_prop in Hsub_all. tauto.
Qed.

(** The search: the pattern matches where the media type first reads. *)
Lemma js_match_MIME :
  forall s,
    match spec_media_type s with
    | Some (ty, sub) =>
        exists w, js_match MIME_RE s = Some [w; ty ++ SLASH :: sub]
    | None => js_match MIME_RE s = None
    end.
Proof.
  induction s as [|c s IH].
  - cbn [spec_media_type js_match].
    pose proof (match_here_MIME []) as H.
    destruct (spec_media_type_here []) as [[ty sub]|].
    + destruct H as [w Hw]. rewrite Hw. exists w. reflexivity.
    + rewrite H. reflexivity.
  - cbn [spec_media_type js_match].
    pose proof (match_here_MIME (c :: s)) as H.
    destruct (spec_media_type_here (c :: s)) as [[ty sub]|].
    + destruct H as [w Hw]. rewrite Hw. exists w. reflexivity.
    + rewrite H. exact IH.
Qed.

Lemma spec_media_type_here_tokens :
  forall s ty sub,
    spec_media_type_here s = Some (ty, sub) ->
    forallb cls_alnum ty = true /\ forallb cls_subtype sub = true
    /\ ty <> [] /\ sub <> [].
Proof.
  intros s ty sub. unfold spec_media_type_here.
  destruct (strip_prefix (js "data:") s) as [s1|]; [|discriminate].
  destruct (span cls_alnum s1) as [a s2] eqn:Ha.
  destruct (span_spec _ _ Ha) as (_ & Hall & _).
  destruct a as [|c a]; [discriminate|].
  destruct s2 as [|c2 s3]; [discriminate|].
  destruct (N.eqb c2 SLASH); [|discriminate].
  destruct (span cls_subtype s3) as [b tail] eqn:Hb.
  destruct (span_spec _ _ Hb) as (_ & Hball & _).
  destruct b as [|d b]; [discriminate|].
  destruct (comma_on_line tail); [|discriminate].
  intros H. inversion H; subst. repeat split; try assumption; discriminate.
Qed.

Lemma spec_media_type_tokens :
  forall s ty sub,
    spec_media_type s = Some (ty, sub) ->
    forallb cls_alnum ty = true /\ forallb cls_subtype sub = true
    /\ ty <> [] /\ sub <> [].
Proof.
  induction s as [|c s IH]; intros ty sub; cbn [spec_media_type].
  - destruct (spec_media_type_here []) as [r|] eqn:H; [|discriminate].
    intros E. inversion E; subst. exact (spec_media_type_here_tokens _ H).
  - destruct (spec_media_type_here (c :: s)) as [r|] eqn:H.
    + intros E. inversion E; subst. exact (spec_media_type_here_tokens _ H).
    + apply IH.
Qed.

(** A media type that starts the URI is the one found. *)
Lemma spec_media_type_data_uri :
  forall ty sub tail,
    ty <> [] -> forallb cls_alnum ty = true ->
    sub <> [] -> forallb cls_subtype sub = true ->
    stops cls_subtype tail ->
    comma_on_line tail = true ->
    spec_media_type (js "data:" ++ ty ++ SLASH :: sub ++ tail) = Some (ty, sub).
Proof.
  intros ty sub tail Hty Hty_all Hsub Hsub_all Hstop Hcol.
  assert (H : spec_media_type_here (js "data:" ++ ty ++ SLASH :: sub ++ tail)
              = Some (ty, sub)).
  { unfold spec_media_type_here. rewrite strip_prefix_app.
    rewrite (span_app cls_alnum ty (SLASH :: sub ++ tail) Hty_all)
      by reflexivity.
    destruct ty as [|c ty]; [congruence|].
    rewrite N.eqb_refl.
    rewrite (span_app cls_subtype sub tail Hsub_all Hstop).
    destruct sub as [|d sub]; [congruence|].
    rewrite Hcol. reflexivity. }
  destruct (js "data:" ++ ty ++ SLASH :: sub ++ tail);
    cbn [spec_media_type]; rewrite H; reflexivity.
Qed.

(** ** [split] *)

Lemma split_on_absent :
  forall sep s,
    forallb (fun c => negb (N.eqb c sep)) s = true ->
    split_on sep s = [s].
Proof.
  intros sep. induction s as [|c s IH]; intros H; simpl; [reflexivity|].
  simpl in H. apply andb_prop in H. destruct H as [Hc Hs].
  apply negb_true_iff in Hc. rewrite Hc, (IH Hs). reflexivity.
Qed.

Lemma split_on_first :
  forall sep a b,
    forallb (fun c => negb (N.eqb c sep)) a = true ->
    split_on sep (a ++ sep :: b) = a :: split_on sep b.
Proof.
  intros sep. induction a as [|c a IH]; intros b H; simpl.
  - rewrite N.eqb_refl. reflexivity.
  - simpl in H. apply andb_prop in H. destruct H as [Hc Ha].
    apply negb_true_iff in Hc. rewrite Hc, (IH b Ha). reflexivity.
Qed.

Lemma subtype_no_slash :
  forall s,
    forallb cls_subtype s = true ->
    forallb (fun c => negb (N.eqb c SLASH)) s = true.
Proof.
  induction s as [|c s IH]; intros H; simpl; [reflexivity|].
  simpl in H. apply andb_prop in H. destruct H as [Hc Hs].
  destruct (cls_subtype_excludes c Hc) as (_ & Hslash & _).
  rewrite Hslash, (IH Hs). reflexivity.
Qed.

Lemma alnum_is_subtype :
  forall s, forallb cls_alnum s = true -> forallb cls_subtype s = true.
Proof.
  induction s as [|c s IH]; intros H; simpl; [reflexivity|].
  simpl in H. apply andb_prop in H. destruct H as [Hc Hs].
  rewrite (cls_alnum_subtype c Hc), (IH Hs). reflexivity.
Qed.

(** [mimeTypeMatch[1].split('/')[1]] on a captured media type. *)
Lemma split_media_type :
  forall ty sub,
    forallb cls_alnum ty = true -> forallb cls_subtype sub = true ->
    nth_error (split_on SLASH (ty ++ SLASH :: sub)) 1 = Some sub.
Proof.
  intros ty sub Hty Hsub.
  rewrite split_on_first by (apply subtype_no_slash, alnum_is_subtype, Hty).
  rewrite split_on_absent by (apply subtype_no_slash, Hsub).
  reflexivity.
Qed.

(** ** The download name *)

Lemma extension_of_spec :
  forall url, extension_of url = Some (spec_extension url).
Proof.
  intros url. unfold extension_of, spec_extension.
  pose proof (js_match_MIME url) as H.
  destruct (spec_media_type url) as [[ty sub]|] eqn:Hspec.
  - destruct H as [w Hw]. rewrite Hw.
    change (Nat.ltb 1 (length [w; ty ++ SLASH :: sub])) with true.
    cbn iota. cbn [nth_error].
    destruct (spec_media_type_tokens _ Hspec) as (Hty & Hsub & _ & _).
    exact (split_media_type ty sub Hty Hsub).
  - rewrite H. reflexivity.
Qed.

Lemma handleDownload_spec :
  forall url : jsstring,
    url <> [] ->
    handleDownload (Some url)
    = Some {| href := url;
              download := js "genz-hub-edit." ++ spec_extension url |}.
Proof.
  intros url Hurl. unfold handleDownload.
  destruct url as [|c url]; [congruence|].
  cbn [truthy_string negb]. rewrite extension_of_spec. reflexivity.
Qed.

Lemma media_type_tokens_spec :
  forall ty sub tail,
    media_type_tokens ty sub tail = true ->
    spec_media_type (js "data:" ++ ty ++ SLASH :: sub ++ tail) = Some (ty, sub).
Proof.
  intros ty sub tail H. unfold media_type_tokens in H.
  repeat (apply andb_prop in H; destruct H as [H ?]).
  apply spec_media_type_data_uri; try assumption.
  - apply truthy_string_nonempty. assumption.
  - apply truthy_string_nonempty. assumption.
  - destruct tail as [|c tail]; simpl; [exact I|].
    apply negb_true_iff. assumption.
Qed.

(** What the direct reading finds, said without recursion: the URI splits
    as [pre data:ty/sub tail] with the tokens of the pattern. *)
Lemma spec_media_type_here_inv :
  forall s ty sub,
    spec_media_type_here s = Some (ty, sub) ->
    exists tail,
      s = js "data:" ++ ty ++ SLASH :: sub ++ tail
      /\ media_type_tokens ty sub tail = true.
Proof.
  intros s ty sub. unfold spec_media_type_here.
  destruct (strip_prefix (js "data:") s) as [s1|] eqn:Hpre; [|discriminate].
  apply strip_prefix_Some in Hpre.
  destruct (span cls_alnum s1) as [a s2] eqn:Ha.
  destruct (span_spec _ _ Ha) as (E1 & Hall & _).
  destruct a as [|c a]; [discriminate|].
  destruct s2 as [|c2 s3]; [discriminate|].
  destruct (N.eqb_spec c2 SLASH) as [->|]; [|discriminate].
  destruct (span cls_subtype s3) as [b tail] eqn:Hb.
  destruct (span_spec _ _ Hb) as (E3 & Hball & Hstop).
  destruct b as [|d b]; [discriminate|].
  destruct (comma_on_line tail) eqn:Hcol; [|discriminate].
  intros H. inversion H; subst. exists tail. split.
  - reflexivity.
  - unfold media_type_tokens. rewrite Hall, Hball, Hcol.
    destruct tail as [|e tail]; [reflexivity|].
    simpl in Hstop. rewrite Hstop. reflexivity.
Qed.

Lemma spec_media_type_inv :
  forall s ty sub,
    spec_media_type s = Some (ty, sub) ->
    exists pre tail,
      s = pre ++ js "data:" ++ ty ++ SLASH :: sub ++ tail
      /\ media_type_tokens ty sub tail = true.
Proof.
  induction s as [|c s IH]; intros ty sub; cbn [spec_media_type].
  - destruct (spec_media_type_here []) as [r|] eqn:H; [|discriminate].
    intros E. inversion E; subst.
    destruct (spec_media_type_here_inv _ H) as (tail & Es & Htok).
    exists [], tail. split; assumption.
  - destruct (spec_media_type_here (c :: s)) as [r|] eqn:H.
    + intros E. inversion E; subst.
      destruct (spec_media_type_here_inv _ H) as (tail & Es & Htok).
      exists [], tail. split; assumption.
    + intros E. destruct (IH ty sub E) as (pre & tail & Es & Htok).
      exists (c :: pre), tail. split; [|exact Htok].
      simpl. rewrite Es. reflexivity.
Qed.

Lemma spec_media_type_found :
  forall pre ty sub tail,
    media_type_tokens ty sub tail = true ->
    spec_media_type (pre ++ js "data:" ++ ty ++ SLASH :: sub ++ tail) <> None.
Proof.
  induction pre as [|c pre IH]; intros ty sub tail Htok.
  - change (spec_media_type (js "data:" ++ ty ++ SLASH :: sub ++ tail) <> None).
    rewrite (media_type_tokens_spec ty sub tail Htok). discriminate.
  - change ((c :: pre) ++ js "data:" ++ ty ++ SLASH :: sub ++ tail)
      with (c :: (pre ++ js "data:" ++ ty ++ SLASH :: sub ++ tail)).
    cbn [spec_media_type].
    destruct (spec_media_type_here _); [discriminate|].
    apply IH. exact Htok.
Qed.

Lemma js_match_none_iff :
  forall url, js_match MIME_RE url = None <-> spec_media_type url = None.
Proof.
  intros url. pose proof (js_match_MIME url) as H.
  destruct (spec_media_type url) as [[ty sub]|].
  - destruct H as [w Hw]. rewrite Hw. split; discriminate.
  - rewrite H. split; reflexivity.
Qed.

(** C8: for every non-empty image URI the download is named
    [genz-hub-edit.<extension>], where the extension is the subtype of the
    media type that reads in the URI and [png] when none does.  In
    particular a URI [data:<type>/<subtype><tail>] (type and subtype the
    tokens of the pattern, a comma on the line) gets its subtype, and a URI
    the pattern does not match gets [png]. *)
Theorem download_filename :
  forall url,
    truthy_string url = true ->
    handleDownload (Some url)
    = Some {| href := url;
              download := js "genz-hub-edit." ++ spec_extension url |}
    /\ (forall ty sub tail,
           url = js "data:" ++ ty ++ js "/" ++ sub ++ tail ->
           media_type_tokens ty sub tail = true ->
           handleDownload (Some url)
           = Some {| href := url; download := js "genz-hub-edit." ++ sub |})
    /\ (js_match MIME_RE url = None ->
        handleDownload (Some url)
        = Some {| href := url; download := js "genz-hub-edit." ++ js "png" |}).
Proof.
  intros url Hurl. apply truthy_string_nonempty in Hurl.
  pose proof (handleDownload_spec Hurl) as H.
  split; [exact H|split].
  - intros ty sub tail E Htok. rewrite H. unfold spec_extension.
    rewrite E. change (js "/" ++ sub ++ tail) with (SLASH :: sub ++ tail).
    rewrite (media_type_tokens_spec ty sub tail Htok). reflexivity.
  - intros Hnone. rewrite H. unfold spec_extension.
    apply js_match_none_iff in Hnone. rewrite Hnone. reflexivity.
Qed.

Lemma download_filename_witness :
  handleDownload (Some (js "data:image/jpeg;base64,/9j/4AAQ"))
  = Some {| href := js "data:image/jpeg;base64,/9j/4AAQ";
            download := js "genz-hub-edit." ++ js "jpeg" |}
  /\ handleDownload (Some (js "blob:https://host/0b1c"))
     = Some {| href := js "blob:https://host/0b1c";
               download := js "genz-hub-edit." ++ js "png" |}.
Proof.
  split.
  - exact (proj1 (proj2 (@download_filename
                           (js "data:image/jpeg;base64,/9j/4AAQ") eq_refl))
                 (js "image") (js "jpeg") (js ";base64,/9j/4AAQ")
                 eq_refl eq_refl).
  - exact (proj2 (proj2 (@download_filename
                           (js "blob:https://host/0b1c") eq_refl))
                 eq_refl).
Defined.

(** C9: when the service answers with inline data of media type
    [image/<sub>], [sub] a non-empty word over the subtype alphabet of the
    pattern, the URI [editImageWithAI] returns makes [handleDownload] name
    the file [genz-hub-edit.<sub>]. *)
Theorem media_type_round_trip :
  forall env imageFile prompt result response part d sub,
    truthy (API_KEY env) = true ->
    readAsDataURL env imageFile = Loaded result ->
    generateContent env (sent_request imageFile prompt result) = Return response ->
    firstPart response = Some part ->
    inlineData part
    = Some {| data := Some d; mimeType := Some (js "image/" ++ sub) |} ->
    truthy_string sub = true ->
    forallb cls_subtype sub = true ->
    exists url,
      fst (run (editImageWithAI env imageFile prompt)) = Return url
      /\ handleDownload (Some url)
         = Some {| href := url; download := js "genz-hub-edit" ++ js "." ++ sub |}.
Proof.
  intros env imageFile prompt result response part d sub
         Hkey Hread Hcall Hpart Hinl Hsub Hcls.
  exists (js "data:" ++ (js "image/" ++ sub) ++ js ";base64," ++ d).
  split.
  - assert (Himg : inlineImage response
                   = Some {| data := Some d;
                             mimeType := Some (js "image/" ++ sub) |}).
    { unfold inlineImage. rewrite Hpart. exact Hinl. }
    rewrite (@run_service_response env imageFile prompt Hkey result response Hread Hcall).
    rewrite (interpret_image _ _ Himg). reflexivity.
  - assert (E : js "data:" ++ (js "image/" ++ sub) ++ js ";base64," ++ d
                = js "data:" ++ js "image" ++ SLASH :: sub ++ (js ";base64," ++ d)).
    { change (js "image/") with (js "image" ++ [SLASH]).
      rewrite <- !app_assoc. reflexivity. }
    rewrite E.
    assert (Hne : js "data:" ++ js "image" ++ SLASH :: sub ++ js ";base64," ++ d <> [])
      by discriminate.
    rewrite (handleDownload_spec Hne). unfold spec_extension.
    rewrite (media_type_tokens_spec (js "image") sub (js ";base64," ++ d)).
    + reflexivity.
    + unfold media_type_tokens. rewrite Hsub, Hcls. reflexivity.
Qed.

Lemma media_type_round_trip_witness :
  exists url,
    fst (run (editImageWithAI
                (env_of a_key reader_ok
                   (Return (response_of
                              (Some {| data := Some (js "UklGRg==");
                                       mimeType := Some (js "image/" ++ js "webp") |})
                              (Some (js "STOP")))))
                cat_png a_prompt))
    = Return url
    /\ handleDownload (Some url)
       = Some {| href := url; download := js "genz-hub-edit" ++ js "." ++ js "webp" |}.
Proof.
  exact (@media_type_round_trip
           (env_of a_key reader_ok
              (Return (response_of
                         (Some {| data := Some (js "UklGRg==");
                                  mimeType := Some (js "image/" ++ js "webp") |})
                         (Some (js "STOP")))))
           cat_png a_prompt (js "data:image/png;base64,QUJD")
           (response_of
              (Some {| data := Some (js "UklGRg==");
                       mimeType := Some (js "image/" ++ js "webp") |})
              (Some (js "STOP")))
           {| inlineData := Some {| data := Some (js "UklGRg==");
                                    mimeType := Some (js "image/" ++ js "webp") |};
              text := None |}
           (js "UklGRg==") (js "webp")
           eq_refl eq_refl eq_refl eq_refl eq_refl eq_refl eq_refl).
Defined.

(** * Further properties of the service *)

(** X1: whatever makes [editImageWithAI] reject, the value it rejects with
    is an [Error]: its callers can read [message] from it. *)
Theorem every_rejection_is_an_Error :
  forall env imageFile prompt v tr,
    run (editImageWithAI env imageFile prompt) = (Throw v, tr) ->
    exists name message, v = JsError name message.
Proof.
  intros env imageFile prompt v tr Hrun.
  pose proof (editImageWithAI_rejects_with_Error env imageFile prompt Hrun) as H.
  destruct v; try discriminate. eauto.
Qed.

Lemma every_rejection_is_an_Error_witness :
  exists name message, new_Error MSG_READ_FAILURE = JsError name message.
Proof.
  exact (@every_rejection_is_an_Error
           (mkEnv a_key reader_broken service_down) cat_png a_prompt
           (new_Error MSG_READ_FAILURE)
           [EvReadAsDataURL cat_png;
            EvConsoleError (js "Error reading file:") (JsEvent (js "error"))]
           eq_refl).
Defined.

(** X2: A run is one of four: stopped at the credential check; stopped at the
    read; answered with an image; rejected after the one request.  So a
    request is sent at most once, only after the read of this file, and an
    error is logged exactly when the run rejects past the credential check. *)
Theorem editImageWithAI_run_shape :
  forall env imageFile prompt,
    run (editImageWithAI env imageFile prompt)
    = (Throw (new_Error MSG_NOT_CONFIGURED), [])
    \/ (exists ev,
           run (editImageWithAI env imageFile prompt)
           = (Throw (new_Error MSG_READ_FAILURE),
              [EvReadAsDataURL imageFile;
               EvConsoleError (js "Error reading file:") ev]))
    \/ (exists req url,
           run (editImageWithAI env imageFile prompt)
           = (Return url, [EvReadAsDataURL imageFile; EvGenerateContent req]))
    \/ (exists req v e,
           run (editImageWithAI env imageFile prompt)
           = (Throw e,
              [EvReadAsDataURL imageFile; EvGenerateContent req;
               EvConsoleError (js "Error calling AI service:") v])).
Proof.
  intros env imageFile prompt.
  destruct (truthy (API_KEY env)) eqn:Hkey.
  - destruct (readAsDataURL env imageFile) as [result|ev] eqn:Hread.
    + right. right.
      destruct (generateContent env (sent_request imageFile prompt result))
        as [response|w] eqn:Hcall.
      * rewrite (@run_service_response env imageFile prompt Hkey result response Hread Hcall).
        destruct (inlineImage response) as [blob|] eqn:Himg.
        -- left. rewrite (interpret_image _ _ Himg). eauto.
        -- right. rewrite (interpret_no_image _ _ Himg).
           destruct (finishedForSafety response); cbn [instanceof_Error new_Error app]; eauto.
      * right.
        rewrite (@run_service_throw env imageFile prompt Hkey result w Hread Hcall).
        eauto.
    + right. left. exists ev.
      exact (@run_read_error env imageFile prompt Hkey ev Hread).
  - left. exact (@run_not_configured env imageFile prompt Hkey).
Qed.

(** X3: A request that is sent names the fixed model, asks for an image, and
    carries two parts: the second segment of the reader's result with the
    declared type of the file, then the prompt as given (not trimmed). *)
Theorem request_content :
  forall env imageFile prompt req,
    In (EvGenerateContent req) (snd (run (editImageWithAI env imageFile prompt))) ->
    exists result,
      readAsDataURL env imageFile = Loaded result
      /\ truthy (API_KEY env) = true
      /\ req = {| model := js "gemini-2.5-flash-image";
                  contents_parts :=
                    [InlinePart (nth_error (split_on COMMA result) 1)
                                (file_type imageFile);
                     TextPart prompt];
                  responseModalities := [IMAGE] |}.
Proof.
  intros env imageFile prompt req.
  destruct (truthy (API_KEY env)) eqn:Hkey.
  - destruct (readAsDataURL env imageFile) as [result|ev] eqn:Hread.
    + intros Hin. exists result. split; [reflexivity|]. split; [reflexivity|].
      assert (Hreq : req = sent_request imageFile prompt result).
      { destruct (generateContent env (sent_request imageFile prompt result))
          as [response|w] eqn:Hcall.
        - rewrite (@run_service_response env imageFile prompt Hkey result response Hread Hcall)
            in Hin.
          destruct (interpret response _) as [[url|v] tr] eqn:Hint.
          + unfold interpret in Hint.
            destruct (inlineImage response); [|destruct (finishedForSafety response)];
              inversion Hint; subst; cbn in Hin;
              destruct Hin as [H|[H|[]]]; inversion H; reflexivity.
          + unfold interpret in Hint.
            destruct (inlineImage response); [|destruct (finishedForSafety response)];
              inversion Hint; subst; cbn in Hin;
              destruct Hin as [H|[H|[H|[]]]]; inversion H; reflexivity.
        - rewrite (@run_service_throw env imageFile prompt Hkey result w Hread Hcall)
            in Hin.
          cbn in Hin. destruct Hin as [H|[H|[H|[]]]]; inversion H; reflexivity. }
      rewrite Hreq. reflexivity.
    + rewrite (@run_read_error env imageFile prompt Hkey ev Hread).
      cbn. intros [H|[H|[]]]; inversion H.
  - rewrite (@run_not_configured env imageFile prompt Hkey). intros [].
Qed.

Lemma request_content_witness :
  exists result,
    readAsDataURL (mkEnv a_key reader_ok service_down) cat_png = Loaded result
    /\ truthy (API_KEY (mkEnv a_key reader_ok service_down)) = true
    /\ sent_request cat_png (js "  add a hat ") (js "data:image/png;base64,QUJD")
       = {| model := js "gemini-2.5-flash-image";
            contents_parts :=
              [InlinePart (nth_error (split_on COMMA result) 1) (file_type cat_png);
               TextPart (js "  add a hat ")];
            responseModalities := [IMAGE] |}.
Proof.
  exact (@request_content
           (mkEnv a_key reader_ok service_down) cat_png (js "  add a hat ")
           (sent_request cat_png (js "  add a hat ") (js "data:image/png;base64,QUJD"))
           (or_intror (or_introl eq_refl))).
Defined.

(** X4: [fileToBase64] on a reader result [header,payload] (no other comma)
    resolves with the payload, after the one read. *)
Theorem fileToBase64_payload :
  forall env file header payload,
    readAsDataURL env file = Loaded (header ++ COMMA :: payload) ->
    forallb (fun c => negb (N.eqb c COMMA)) header = true ->
    forallb (fun c => negb (N.eqb c COMMA)) payload = true ->
    run (fileToBase64 env file)
    = (Return (Some payload), [EvReadAsDataURL file]).
Proof.
  intros env file header payload Hread Hh Hp.
  assert (E : nth_error (split_on COMMA (header ++ COMMA :: payload)) 1
              = Some payload).
  { unfold codeunit in *.
    rewrite (split_on_first COMMA header payload Hh).
    rewrite (split_on_absent COMMA payload Hp). reflexivity. }
  cbv beta iota zeta delta [run fileToBase64 bind emit ret].
  rewrite Hread. cbv beta iota. rewrite E. reflexivity.
Qed.

Lemma fileToBase64_payload_witness :
  run (fileToBase64 (env_of a_key reader_ok (Return response_stop)) cat_png)
  = (Return (Some (js "QUJD")), [EvReadAsDataURL cat_png]).
Proof.
  exact (@fileToBase64_payload
           (env_of a_key reader_ok (Return response_stop)) cat_png
           (js "data:image/png;base64") (js "QUJD") eq_refl eq_refl eq_refl).
Defined.

(** X5: A reader result without a comma is not a read failure: the request is
    sent all the same, its inline data undefined. *)
Theorem commaless_result_is_sent :
  forall env imageFile prompt result,
    truthy (API_KEY env) = true ->
    readAsDataURL env imageFile = Loaded result ->
    forallb (fun c => negb (N.eqb c COMMA)) result = true ->
    nth_error (snd (run (editImageWithAI env imageFile prompt))) 1
    = Some (EvGenerateContent
              {| model := MODEL_NAME;
                 contents_parts := [InlinePart None (file_type imageFile);
                                    TextPart prompt];
                 responseModalities := [IMAGE] |}).
Proof.
  intros env imageFile prompt result Hkey Hread Hres.
  assert (Hreq : sent_request imageFile prompt result
                 = {| model := MODEL_NAME;
                      contents_parts := [InlinePart None (file_type imageFile);
                                         TextPart prompt];
                      responseModalities := [IMAGE] |}).
  { unfold sent_request, request_of.
    rewrite (split_on_absent COMMA result Hres). reflexivity. }
  rewrite <- Hreq.
  destruct (generateContent env (sent_request imageFile prompt result))
    as [response|w] eqn:Hcall.
  - rewrite (@run_service_response env imageFile prompt Hkey result response Hread Hcall).
    unfold interpret.
    destruct (inlineImage response); [|destruct (finishedForSafety response)];
      reflexivity.
  - rewrite (@run_service_throw env imageFile prompt Hkey result w Hread Hcall).
    reflexivity.
Qed.

Lemma commaless_result_is_sent_witness :
  nth_error (snd (run (editImageWithAI
                         (mkEnv a_key (fun _ => Loaded (js "data:")) service_down)
                         cat_png a_prompt))) 1
  = Some (EvGenerateContent
            {| model := MODEL_NAME;
               contents_parts := [InlinePart None (js "image/png"); TextPart a_prompt];
               responseModalities := [IMAGE] |}).
Proof.
  exact (@commaless_result_is_sent
           (mkEnv a_key (fun _ => Loaded (js "data:")) service_down)
           cat_png a_prompt (js "data:") eq_refl eq_refl eq_refl).
Defined.

Lemma run_return_inv :
  forall env imageFile prompt url tr,
    run (editImageWithAI env imageFile prompt) = (Return url, tr) ->
    truthy (API_KEY env) = true
    /\ exists result response blob,
         readAsDataURL env imageFile = Loaded result
         /\ generateContent env (sent_request imageFile prompt result)
            = Return response
         /\ inlineImage response = Some blob
         /\ url = js "data:" ++ template (mimeType blob) ++ js ";base64,"
                  ++ template (data blob).
Proof.
  intros env imageFile prompt url tr.
  destruct (truthy (API_KEY env)) eqn:Hkey.
  - destruct (readAsDataURL env imageFile) as [result|ev] eqn:Hread.
    + destruct (generateContent env (sent_request imageFile prompt result))
        as [response|w] eqn:Hcall.
      * rewrite (@run_service_response env imageFile prompt Hkey result response Hread Hcall).
        destruct (inlineImage response) as [blob|] eqn:Himg.
        -- rewrite (interpret_image _ _ Himg). intros H. inversion H; subst.
           split; [reflexivity|]. exists result, response, blob.
           repeat split; assumption.
        -- rewrite (interpret_no_image _ _ Himg). discriminate.
      * rewrite (@run_service_throw env imageFile prompt Hkey result w Hread Hcall).
        discriminate.
    + rewrite (@run_read_error env imageFile prompt Hkey ev Hread). discriminate.
  - rewrite (@run_not_configured env imageFile prompt Hkey). discriminate.
Qed.


(** X6: a run returns only what the service sent: the credential was there,
    the file was read, the answer carried inline data in the first part of
    its first candidate, and the URL is built from that data and nothing
    else. *)
Theorem success_only_from_inline_data :
  forall env imageFile prompt url tr,
    run (editImageWithAI env imageFile prompt) = (Return url, tr) ->
    truthy (API_KEY env) = true
    /\ exists result response blob,
         readAsDataURL env imageFile = Loaded result
         /\ generateContent env (sent_request imageFile prompt result)
            = Return response
         /\ inlineImage response = Some blob
         /\ url = js "data:" ++ template (mimeType blob) ++ js ";base64,"
                  ++ template (data blob).
Proof.
  intros env imageFile prompt url tr Hrun.
  exact (run_return_inv env imageFile prompt Hrun).
Qed.

Lemma success_only_from_inline_data_witness :
  truthy (API_KEY (mkEnv a_key reader_ok service_image)) = true
  /\ exists result response blob,
       readAsDataURL (mkEnv a_key reader_ok service_image) cat_png = Loaded result
       /\ generateContent (mkEnv a_key reader_ok service_image)
                          (sent_request cat_png a_prompt result)
          = Return response
       /\ inlineImage response = Some blob
       /\ js "data:image/png;base64,iVBORw0KGgo="
          = js "data:" ++ template (mimeType blob) ++ js ";base64,"
            ++ template (data blob).
Proof.
  exact (@success_only_from_inline_data
           (mkEnv a_key reader_ok service_image) cat_png a_prompt
           (js "data:image/png;base64,iVBORw0KGgo=")
           [EvReadAsDataURL cat_png;
            EvGenerateContent
              (sent_request cat_png a_prompt (js "data:image/png;base64,QUJD"))]
           eq_refl).
Defined.

(** * Further properties of the download *)

(** X7: Whatever the URL, the name of the download is [genz-hub-edit.] followed
    by a non-empty extension over the letters, digits, dash, dot and plus:
    no separator, no space, nothing of the URL's payload. *)
Theorem download_name_is_safe :
  forall url,
    truthy_string url = true ->
    exists ext,
      handleDownload (Some url)
      = Some {| href := url; download := js "genz-hub-edit." ++ ext |}
      /\ ext <> []
      /\ forallb cls_subtype ext = true.
Proof.
  intros url Hurl. apply truthy_string_nonempty in Hurl.
  exists (spec_extension url). split; [exact (handleDownload_spec Hurl)|].
  unfold spec_extension.
  destruct (spec_media_type url) as [[ty sub]|] eqn:H.
  - destruct (spec_media_type_tokens _ H) as (_ & Hsub & _ & Hne).
    split; assumption.
  - split; [discriminate|reflexivity].
Qed.

Lemma download_name_is_safe_witness :
  exists ext,
    handleDownload (Some (js "data:image/../../etc;x,y"))
    = Some {| href := js "data:image/../../etc;x,y";
              download := js "genz-hub-edit." ++ ext |}
    /\ ext <> []
    /\ forallb cls_subtype ext = true.
Proof.
  exact (@download_name_is_safe (js "data:image/../../etc;x,y") eq_refl).
Defined.

(** No URL, or an empty one: the click does nothing. *)
Lemma handleDownload_nothing :
  handleDownload None = None /\ handleDownload (Some []) = None.
Proof. split; reflexivity. Qed.

(** * Further properties of the component *)

Lemma trim_start_nil_iff :
  forall s, trim_start s = [] <-> forallb is_white_space s = true.
Proof.
  induction s as [|c s IH]; simpl.
  - split; reflexivity.
  - destruct (is_white_space c); simpl.
    + exact IH.
    + split; discriminate.
Qed.

Lemma forallb_rev :
  forall (f : codeunit -> bool) s, forallb f (rev s) = forallb f s.
Proof.
  intros f. induction s as [|c s IH]; simpl; [reflexivity|].
  rewrite forallb_app, IH. simpl. rewrite andb_true_r. apply andb_comm.
Qed.

Lemma trim_start_head :
  forall s c r, trim_start s = c :: r -> is_white_space c = false.
Proof.
  induction s as [|d s IH]; intros c r H; simpl in H; [discriminate|].
  destruct (is_white_space d) eqn:Hd.
  - exact (IH c r H).
  - inversion H; subst. exact Hd.
Qed.

(** [!prompt.trim()] holds exactly for the prompts made of white space and
    line terminators only (the empty one included). *)
Lemma trim_blank_iff :
  forall s, truthy_string (trim s) = false <-> forallb is_white_space s = true.
Proof.
  intros s. unfold trim.
  destruct (trim_start s) as [|c r] eqn:Hs.
  - simpl. split; [intros _|reflexivity].
    apply trim_start_nil_iff. exact Hs.
  - pose proof (trim_start_head s Hs) as Hc.
    split.
    + intros H.
      assert (Hnil : trim_start (rev (c :: r)) = []).
      { destruct (trim_start (rev (c :: r))) as [|c0 l] eqn:E; [reflexivity|].
        simpl in H. destruct (rev l); simpl in H; discriminate. }
      apply trim_start_nil_iff in Hnil. rewrite forallb_rev in Hnil.
      simpl in Hnil. rewrite Hc in Hnil. discriminate.
    + intros H. apply trim_start_nil_iff in H. rewrite H in Hs. discriminate.
Qed.

Lemma includes_In :
  forall l x, includes l x = true <-> In x l.
Proof.
  intros l x. unfold includes. rewrite existsb_exists. split.
  - intros (y & Hy & E). apply jsstring_eqb_eq in E. subst. exact Hy.
  - intros H. exists x. split; [exact H|]. apply jsstring_eqb_eq. reflexivity.
Qed.

(** X8: A file of at most 4 MiB (the bound included) whose declared type is one
    of the three allowed is accepted: it becomes the file of the component,
    with no error, the previous result gone and the spinner off. *)
Theorem valid_file_accepted :
  forall file s,
    (file_size file <= 4 * 1024 * 1024)%N ->
    In (file_type file) [js "image/png"; js "image/jpeg"; js "image/webp"] ->
    App.handleImageChange (Some file) s
    = {| App.originalImageFile := Some file;
         App.prompt := App.prompt s;
         App.editedImageUrl := None;
         App.isLoading := App.isLoading s;
         App.isUploading := false;
         App.runtimeError := None |}.
Proof.
  intros file s Hsize Htype.
  unfold App.handleImageChange, App.handleImageChange_timeout.
  assert (H1 : N.ltb MAX_SIZE (file_size file) = false)
    by (apply N.ltb_ge; exact Hsize).
  assert (H2 : includes allowedTypes (file_type file) = true)
    by (apply includes_In; exact Htype).
  rewrite H1, H2. reflexivity.
Qed.

Lemma valid_file_accepted_witness :
  App.handleImageChange (Some exact_png) cat_loaded
  = {| App.originalImageFile := Some exact_png;
       App.prompt := a_prompt;
       App.editedImageUrl := None;
       App.isLoading := false;
       App.isUploading := false;
       App.runtimeError := None |}.
Proof.
  refine (@valid_file_accepted exact_png cat_loaded _ (or_introl eq_refl)).
  vm_compute. discriminate.
Defined.

(** X9: A file within the size bound whose declared type is none of the three
    is refused with the invalid-type message; no file is held afterwards. *)
Theorem unsupported_type_rejected :
  forall file s,
    (file_size file <= 4 * 1024 * 1024)%N ->
    includes allowedTypes (file_type file) = false ->
    App.handleImageChange (Some file) s
    = {| App.originalImageFile := None;
         App.prompt := App.prompt s;
         App.editedImageUrl := None;
         App.isLoading := App.isLoading s;
         App.isUploading := false;
         App.runtimeError :=
           Some (js "Invalid file type. Please upload a PNG, JPG, or WEBP image.") |}.
Proof.
  intros file s Hsize Htype.
  unfold App.handleImageChange, App.handleImageChange_timeout.
  assert (H1 : N.ltb MAX_SIZE (file_size file) = false)
    by (apply N.ltb_ge; exact Hsize).
  rewrite H1, Htype. reflexivity.
Qed.

Lemma unsupported_type_rejected_witness :
  App.handleImageChange (Some small_gif) cat_loaded
  = {| App.originalImageFile := None;
       App.prompt := a_prompt;
       App.editedImageUrl := None;
       App.isLoading := false;
       App.isUploading := false;
       App.runtimeError :=
         Some (js "Invalid file type. Please upload a PNG, JPG, or WEBP image.") |}.
Proof.
  refine (@unsupported_type_rejected small_gif cat_loaded _ eq_refl).
  vm_compute. discriminate.
Defined.

(** X10: Any selection discards what was there: the previous result image is
    gone, and the file held afterwards is the new one or none (then with an
    error); a refused file does not leave the previous file in place. *)
Theorem selection_replaces_everything :
  forall file s,
    App.editedImageUrl (App.handleImageChange (Some file) s) = None
    /\ App.isUploading (App.handleImageChange (Some file) s) = false
    /\ ((App.originalImageFile (App.handleImageChange (Some file) s) = Some file
         /\ App.runtimeError (App.handleImageChange (Some file) s) = None
         /\ valid_file file = true)
        \/ (App.originalImageFile (App.handleImageChange (Some file) s) = None
            /\ App.runtimeError (App.handleImageChange (Some file) s) <> None
            /\ valid_file file = false)).
Proof.
  intros file s.
  unfold App.handleImageChange, App.handleImageChange_timeout, valid_file.
  destruct (N.ltb MAX_SIZE (file_size file)).
  - repeat split. right. repeat split. discriminate.
  - destruct (includes allowedTypes (file_type file)).
    + repeat split. left. repeat split.
    + repeat split. right. repeat split. discriminate.
Qed.

(** X11: With the credential configured, a submission without a file, or with a
    prompt of white space only, stops at the guard: the missing-input
    message is set, nothing else changes and the service is not called. *)
Theorem blank_submission_refused :
  forall env s,
    truthy (API_KEY env) = true ->
    App.originalImageFile s = None
    \/ forallb is_white_space (App.prompt s) = true ->
    App.handleSubmit env s
    = (App.setRuntimeError
         (Some (js "Please upload an image and enter a prompt.")) s, []).
Proof.
  intros env s Hkey Hblank.
  unfold App.handleSubmit, App.handleSubmit_with, App.handleSubmit_begin,
    App.isApiConfigured.
  rewrite Hkey. cbn [negb].
  destruct (App.originalImageFile s) as [file|]; [|reflexivity].
  destruct Hblank as [H|H]; [discriminate|].
  apply trim_blank_iff in H. rewrite H. reflexivity.
Qed.

Lemma blank_submission_refused_witness :
  App.handleSubmit (mkEnv a_key reader_ok service_image)
                   (App.setPrompt (js "   ") cat_loaded)
  = (App.setRuntimeError (Some MSG_MISSING_INPUT)
                         (App.setPrompt (js "   ") cat_loaded), [])
  /\ App.handleSubmit (mkEnv a_key reader_ok service_image) App.initial
     = (App.setRuntimeError (Some MSG_MISSING_INPUT) App.initial, []).
Proof.
  split.
  - exact (@blank_submission_refused
             (mkEnv a_key reader_ok service_image)
             (App.setPrompt (js "   ") cat_loaded) eq_refl (or_intror eq_refl)).
  - exact (@blank_submission_refused
             (mkEnv a_key reader_ok service_image) App.initial
             eq_refl (or_introl eq_refl)).
Defined.

(** X12: Without the credential the current revision's [handleSubmit] does
    nothing at all, while the earlier revision, given a file and a prompt,
    calls the service and ends with its not-configured message as error. *)
Theorem unconfigured_submission :
  forall env file p url loading uploading err,
    truthy (API_KEY env) = false ->
    truthy_string (trim p) = true ->
    (forall s, App.handleSubmit env s = (s, []))
    /\ AppLegacy.handleSubmit env
         {| AppLegacy.originalImageFile := Some file; AppLegacy.prompt := p;
            AppLegacy.editedImageUrl := url; AppLegacy.isLoading := loading;
            AppLegacy.isUploading := uploading; AppLegacy.error := err |}
       = ({| AppLegacy.originalImageFile := Some file; AppLegacy.prompt := p;
             AppLegacy.editedImageUrl := None; AppLegacy.isLoading := false;
             AppLegacy.isUploading := uploading;
             AppLegacy.error := Some MSG_NOT_CONFIGURED |},
          [EvConsoleError [] (new_Error MSG_NOT_CONFIGURED)]).
Proof.
  intros env file p url loading uploading err Hkey Hp.
  split.
  - intros s.
    unfold App.handleSubmit, App.handleSubmit_with, App.handleSubmit_begin,
      App.isApiConfigured.
    rewrite Hkey. reflexivity.
  - unfold AppLegacy.handleSubmit, AppLegacy.handleSubmit_with,
      AppLegacy.handleSubmit_begin.
    cbn [AppLegacy.originalImageFile AppLegacy.prompt].
    rewrite Hp, (@run_not_configured env file p Hkey). reflexivity.
Qed.

Lemma unconfigured_submission_witness :
  App.handleSubmit (env_of None reader_ok (Return response_stop)) cat_loaded
  = (cat_loaded, []).
Proof.
  exact (proj1 (@unconfigured_submission
                  (env_of None reader_ok (Return response_stop))
                  cat_png a_prompt None false false None eq_refl eq_refl)
               cat_loaded).
Defined.

(** * The component and what it shows *)

(** X13: The download button is there exactly when the image is: never beside
    the spinner or the placeholder; and its click then downloads that image
    under a name [genz-hub-edit.<ext>]. *)
Theorem download_button_only_with_image :
  forall p,
    (ImageDisplay.downloadButton p = true ->
     exists url ext,
       ImageDisplay.imageUrl p = Some url
       /\ ImageDisplay.body p = ImageDisplay.Image url
       /\ ImageDisplay.onClick p
          = Some {| href := url; download := js "genz-hub-edit." ++ ext |})
    /\ (ImageDisplay.downloadButton p = false ->
        forall url, ImageDisplay.body p <> ImageDisplay.Image url).
Proof.
  intros p. unfold ImageDisplay.downloadButton, ImageDisplay.body,
              ImageDisplay.onClick.
  destruct (ImageDisplay.imageUrl p) as [url|]; cbn [truthy].
  - destruct (truthy_string url) eqn:Hurl; cbn [andb].
    + destruct (ImageDisplay.isLoading p); cbn [negb].
      * split; [discriminate|]. intros _ u. discriminate.
      * split; [|discriminate]. intros _.
        exists url, (spec_extension url). repeat split.
        apply handleDownload_spec. apply truthy_string_nonempty. exact Hurl.
    + split; [discriminate|]. intros _ u.
      destruct (ImageDisplay.isLoading p); [discriminate|].
      destruct (ImageDisplay.hasContent p); discriminate.
  - cbn [andb]. split; [discriminate|]. intros _ u.
    destruct (ImageDisplay.isLoading p); [discriminate|].
    destruct (ImageDisplay.hasContent p); discriminate.
Qed.

Lemma download_button_only_with_image_witness :
  exists url ext,
    Some (js "data:image/png;base64,b2xk") = Some url
    /\ ImageDisplay.body (AppView.displayProps cat_loaded) = ImageDisplay.Image url
    /\ ImageDisplay.onClick (AppView.displayProps cat_loaded)
       = Some {| href := url; download := js "genz-hub-edit." ++ ext |}.
Proof.
  exact (proj1 (@download_button_only_with_image (AppView.displayProps cat_loaded))
               eq_refl).
Defined.

(** X14: A submission the service answers with an image ends with that image as
    result, no error and the spinner off; the display then shows it with the
    download button, whose click downloads exactly the returned URL. *)
Theorem successful_submission :
  forall env file p old loading uploading err url tr,
    truthy (API_KEY env) = true ->
    truthy_string (trim p) = true ->
    run (editImageWithAI env file p) = (Return url, tr) ->
    let s' :=
      {| App.originalImageFile := Some file; App.prompt := p;
         App.editedImageUrl := Some url; App.isLoading := false;
         App.isUploading := uploading; App.runtimeError := None |} in
    App.handleSubmit env
      {| App.originalImageFile := Some file; App.prompt := p;
         App.editedImageUrl := old; App.isLoading := loading;
         App.isUploading := uploading; App.runtimeError := err |}
    = (s', tr)
    /\ ImageDisplay.body (AppView.displayProps s') = ImageDisplay.Image url
    /\ ImageDisplay.downloadButton (AppView.displayProps s') = true
    /\ exists ext,
         ImageDisplay.onClick (AppView.displayProps s')
         = Some {| href := url; download := js "genz-hub-edit." ++ ext |}.
Proof.
  intros env file p old loading uploading err url tr Hkey Hp Hrun s'.
  assert (Hurl : truthy_string url = true).
  { destruct (run_return_inv env file p Hrun)
      as (_ & result & response & blob & _ & _ & _ & E).
    rewrite E. reflexivity. }
  split; [|split; [|split]].
  - unfold App.handleSubmit, App.handleSubmit_with, App.handleSubmit_begin,
      App.isApiConfigured.
    rewrite Hkey. cbn [negb App.originalImageFile App.prompt].
    rewrite Hp, Hrun. cbn. rewrite app_nil_r. reflexivity.
  - unfold ImageDisplay.body, AppView.displayProps, s'. cbn. rewrite Hurl.
    reflexivity.
  - unfold ImageDisplay.downloadButton, AppView.displayProps, s'. cbn.
    rewrite Hurl. reflexivity.
  - exists (spec_extension url).
    unfold ImageDisplay.onClick, AppView.displayProps, s'. cbn.
    apply handleDownload_spec. apply truthy_string_nonempty. exact Hurl.
Qed.

Lemma successful_submission_witness :
  fst (App.handleSubmit (mkEnv a_key reader_ok service_image)
                        (App.setRuntimeError (Some MSG_NO_IMAGE) cat_loaded))
  = {| App.originalImageFile := Some cat_png; App.prompt := a_prompt;
       App.editedImageUrl := Some (js "data:image/png;base64,iVBORw0KGgo=");
       App.isLoading := false; App.isUploading := false;
       App.runtimeError := None |}.
Proof.
  exact (f_equal fst
           (proj1 (@successful_submission
                     (mkEnv a_key reader_ok service_image) cat_png a_prompt
                     (Some (js "data:image/png;base64,b2xk")) false false
                     (Some MSG_NO_IMAGE)
                     (js "data:image/png;base64,iVBORw0KGgo=")
                     [EvReadAsDataURL cat_png;
                      EvGenerateContent
                        (sent_request cat_png a_prompt (js "data:image/png;base64,QUJD"))]
                     eq_refl eq_refl eq_refl))).
Defined.

(** X15: The button is disabled exactly when a click could not start a call:
    when [handleSubmit] would stop at one of its guards, or when a call is
    already pending.  So the guards never fire on a click of the enabled
    button. *)
Theorem submit_button_guards_agree :
  forall configured s,
    AppView.submitDisabled configured s
    = (match snd (App.handleSubmit_begin configured s) with
       | Some _ => false
       | None => true
       end
       || App.isLoading s)%bool.
Proof.
  intros configured s.
  unfold AppView.submitDisabled, App.handleSubmit_begin, AppView.no_file.
  destruct configured; cbn [negb].
  - destruct (App.originalImageFile s); [|reflexivity].
    destruct (truthy_string (trim (App.prompt s))); cbn.
    + rewrite orb_false_r. reflexivity.
    + reflexivity.
  - cbn. rewrite !orb_true_r. reflexivity.
Qed.

(** X16: When the credential is configured the two revisions do the same on
    every state, the error slot renamed: same file selection, same
    submission, same trace. *)
Theorem revisions_agree_when_configured :
  forall env s,
    truthy (API_KEY env) = true ->
    (forall file0,
        legacy_of (App.handleImageChange file0 s)
        = AppLegacy.handleImageChange file0 (legacy_of s))
    /\ (legacy_of (fst (App.handleSubmit env s)), snd (App.handleSubmit env s))
       = AppLegacy.handleSubmit env (legacy_of s).
Proof.
  intros env s Hkey. split.
  - intros [file|]; [|reflexivity].
    unfold App.handleImageChange, AppLegacy.handleImageChange,
      App.handleImageChange_timeout, AppLegacy.handleImageChange_timeout.
    destruct (N.ltb MAX_SIZE (file_size file)); [reflexivity|].
    destruct (includes allowedTypes (file_type file)); reflexivity.
  - unfold App.handleSubmit, AppLegacy.handleSubmit, App.handleSubmit_with,
      AppLegacy.handleSubmit_with, App.handleSubmit_begin,
      AppLegacy.handleSubmit_begin, App.isApiConfigured.
    rewrite Hkey. cbn [negb legacy_of AppLegacy.originalImageFile AppLegacy.prompt].
    destruct (App.originalImageFile s) as [file|]; [|reflexivity].
    destruct (truthy_string (trim (App.prompt s))); [|reflexivity].
    destruct (run (editImageWithAI env file (App.prompt s))) as [[url|e] tr];
      reflexivity.
Qed.

Lemma revisions_agree_when_configured_witness :
  (legacy_of (fst (App.handleSubmit (mkEnv a_key reader_ok service_down) cat_loaded)),
   snd (App.handleSubmit (mkEnv a_key reader_ok service_down) cat_loaded))
  = AppLegacy.handleSubmit (mkEnv a_key reader_ok service_down) (legacy_of cat_loaded).
Proof.
  exact (proj2 (@revisions_agree_when_configured
                  (mkEnv a_key reader_ok service_down) cat_loaded eq_refl)).
Defined.

(** * Sessions *)

Lemma editImageWithAI_outcome_ok :
  forall env file p, outcome_ok (fst (run (editImageWithAI env file p))).
Proof.
  intros env file p.
  destruct (run (editImageWithAI env file p)) as [[url|e] tr] eqn:Hrun; cbn.
  - destruct (run_return_inv env file p Hrun)
      as (_ & result & response & blob & _ & _ & _ & E).
    rewrite E. reflexivity.
  - exact (editImageWithAI_rejects_with_Error env file p Hrun).
Qed.

(** Reduce the projections of states built by the setters. *)
Ltac proj_simpl :=
  cbn [Session.ui Session.timers Session.inflight Session.submitted
       App.originalImageFile App.prompt App.editedImageUrl App.isLoading
       App.isUploading App.runtimeError
       App.setOriginalImageFile App.setPrompt App.setEditedImageUrl
       App.setIsLoading App.setIsUploading App.setRuntimeError
       App.handleImageChange_select App.handleSubmit_settle fst snd app].

Lemma session_ok_init : session_ok Session.init.
Proof.
  unfold session_ok, Session.init, App.initial. proj_simpl.
  repeat split; try discriminate; auto.
Qed.

Lemma session_ok_step :
  forall key a x y,
    session_ok x -> Session.step key a x = Some y -> session_ok y.
Proof.
  intros key a x y (Hfile & Htimers & Hflight & Hout & Hsub & Hurl) Hstep.
  destruct a as [f| |v|reader service|]; cbn [Session.step] in Hstep.
  - (* SelectFile *)
    unfold AppView.inputDisabled in Hstep.
    destruct (App.isUploading (Session.ui x)) eqn:Hup; [discriminate|].
    destruct (negb (truthy key)); [discriminate|].
    cbn [orb] in Hstep. inversion Hstep; subst; clear Hstep.
    destruct Htimers as [[Ht _]|[_ Ht]]; [|discriminate].
    unfold session_ok; proj_simpl. rewrite Ht. proj_simpl.
    repeat split; try discriminate; auto.
    right. split; [exists f|]; reflexivity.
  - (* TimerFires *)
    destruct (Session.timers x) as [|f rest] eqn:Ht; [discriminate|].
    inversion Hstep; subst; clear Hstep.
    destruct Htimers as [[Habs _]|[[g Hg] _]]; [discriminate|].
    inversion Hg; subst.
    unfold session_ok, App.handleImageChange_timeout.
    destruct (N.ltb MAX_SIZE (file_size g)) eqn:Hsize; proj_simpl.
    + repeat split; auto.
    + destruct (includes allowedTypes (file_type g)) eqn:Hty;
        cbn [negb]; proj_simpl.
      * repeat split; auto.
        intros f Hf. inversion Hf; subst.
        unfold valid_file. rewrite Hsize, Hty. reflexivity.
      * repeat split; auto.
  - (* EditPrompt *)
    destruct (AppView.promptDisabled (truthy key) (Session.ui x)); [discriminate|].
    inversion Hstep; subst; clear Hstep.
    unfold session_ok; proj_simpl. repeat split; auto.
  - (* ClickSubmit *)
    unfold AppView.submitDisabled, App.handleSubmit_begin, AppView.no_file in Hstep.
    destruct (App.originalImageFile (Session.ui x)) as [file|] eqn:Hf;
      [|discriminate].
    destruct (truthy_string (trim (App.prompt (Session.ui x)))) eqn:Hp;
      [|discriminate].
    destruct (App.isLoading (Session.ui x)) eqn:Hl; [discriminate|].
    destruct (truthy key) eqn:Hkey; [|discriminate].
    cbn [negb orb] in Hstep. inversion Hstep; subst; clear Hstep.
    destruct Hflight as [[Hi _]|[_ Hi]]; [|discriminate].
    unfold session_ok; proj_simpl. rewrite Hi. proj_simpl.
    split; [intros f0 E; apply Hfile; rewrite <- Hf; exact E|].
    split; [exact Htimers|].
    split; [right; split; [eexists; reflexivity|reflexivity]|].
    split; [constructor; [apply editImageWithAI_outcome_ok|constructor]|].
    split; [|intros url E; discriminate].
    apply Forall_app. split; [exact Hsub|].
    constructor; [|constructor]. split; cbn [fst snd]; [|exact Hp].
    apply Hfile. reflexivity.
  - (* Settle *)
    destruct (Session.inflight x) as [|o rest] eqn:Hi; [discriminate|].
    inversion Hstep; subst; clear Hstep.
    destruct Hflight as [[Habs _]|[[o' Ho] _]]; [discriminate|].
    inversion Ho; subst.
    inversion Hout as [|? ? Hok _]; subst.
    unfold session_ok; destruct o' as [url|e]; proj_simpl.
    + repeat split; auto.
      intros u Hu. inversion Hu; subst. exact Hok.
    + repeat split; auto.
Qed.

Lemma session_ok_steps :
  forall key actions x y,
    session_ok x -> Session.steps key actions x = Some y -> session_ok y.
Proof.
  intros key. induction actions as [|a actions IH]; intros x y Hx H; cbn in H.
  - inversion H; subst. exact Hx.
  - destruct (Session.step key a x) as [z|] eqn:Hz; [|discriminate].
    apply (IH z y); [|exact H].
    eapply session_ok_step; eassumption.
Qed.

Lemma reachable_ok :
  forall key x, Session.reachable key x -> session_ok x.
Proof.
  intros key x [actions H].
  eapply session_ok_steps; [apply session_ok_init|exact H].
Qed.

Lemma valid_file_spec :
  forall f,
    valid_file f = true ->
    (file_size f <= 4 * 1024 * 1024)%N
    /\ In (file_type f) [js "image/png"; js "image/jpeg"; js "image/webp"].
Proof.
  intros f H. unfold valid_file in H. apply andb_prop in H.
  destruct H as [Hsize Htype]. split.
  - apply negb_true_iff, N.ltb_ge in Hsize. exact Hsize.
  - apply includes_In. exact Htype.
Qed.

(** X17: In every state a session can reach, the file the component holds passed
    both tests: at most 4 MiB and of an allowed type. *)
Theorem reachable_file_is_valid :
  forall key x f,
    Session.reachable key x ->
    App.originalImageFile (Session.ui x) = Some f ->
    (file_size f <= 4 * 1024 * 1024)%N
    /\ In (file_type f) [js "image/png"; js "image/jpeg"; js "image/webp"].
Proof.
  intros key x f Hreach Hf.
  destruct (reachable_ok Hreach) as (Hfile & _).
  apply valid_file_spec. apply Hfile. exact Hf.
Qed.

Lemma reachable_file_is_valid_witness :
  (file_size exact_png <= 4 * 1024 * 1024)%N
  /\ In (file_type exact_png) [js "image/png"; js "image/jpeg"; js "image/webp"].
Proof.
  exact (@reachable_file_is_valid a_key
           {| Session.ui := App.handleImageChange (Some exact_png) App.initial;
              Session.timers := []; Session.inflight := [];
              Session.submitted := [] |}
           exact_png
           (ex_intro _ [Session.SelectFile exact_png; Session.TimerFires] eq_refl)
           eq_refl).
Defined.

(** X18: Single flight: in every reachable state at most one call of
    [editImageWithAI] is pending and at most one timer; while a call is
    pending the submit button is disabled and the display shows the spinner
    without a download button. *)
Theorem single_flight :
  forall key x,
    Session.reachable key x ->
    length (Session.inflight x) <= 1
    /\ length (Session.timers x) <= 1
    /\ (Session.inflight x <> [] ->
        AppView.submitDisabled (truthy key) (Session.ui x) = true
        /\ ImageDisplay.body (AppView.displayProps (Session.ui x))
           = ImageDisplay.LoadingSpinner
        /\ ImageDisplay.downloadButton (AppView.displayProps (Session.ui x))
           = false).
Proof.
  intros key x Hreach.
  destruct (reachable_ok Hreach) as (_ & Htimers & Hflight & _).
  split; [|split].
  - destruct Hflight as [[H _]|[[o H] _]]; rewrite H; cbn; lia.
  - destruct Htimers as [[H _]|[[f H] _]]; rewrite H; cbn; lia.
  - intros Hne.
    destruct Hflight as [[H _]|[_ Hl]]; [congruence|].
    unfold AppView.submitDisabled, ImageDisplay.body,
      ImageDisplay.downloadButton, AppView.displayProps.
    cbn [ImageDisplay.isLoading ImageDisplay.imageUrl].
    rewrite Hl. cbn [negb]. rewrite !orb_true_r, andb_false_r. repeat split.
Qed.

Lemma single_flight_witness :
  AppView.submitDisabled (truthy a_key)
    (App.setEditedImageUrl None
       (App.setRuntimeError None (App.setIsLoading true cat_loaded))) = true.
Proof.
  refine (proj1 (proj2 (proj2
            (@single_flight a_key
               {| Session.ui :=
                    App.setEditedImageUrl None
                      (App.setRuntimeError None (App.setIsLoading true
                         (App.setPrompt a_prompt
                            (App.handleImageChange (Some cat_png) App.initial))));
                  Session.timers := [];
                  Session.inflight := [Return (js "data:image/png;base64,iVBORw0KGgo=")];
                  Session.submitted := [(cat_png, a_prompt)] |}
               (ex_intro _ [Session.SelectFile cat_png; Session.TimerFires;
                            Session.EditPrompt a_prompt;
                            Session.ClickSubmit reader_ok service_image]
                         eq_refl))) _)).
  discriminate.
Defined.

(** X19: Every call of [editImageWithAI] a session makes is for a file that
    passed both tests, with a prompt that is not blank. *)
Theorem submitted_inputs_are_valid :
  forall key x file p,
    Session.reachable key x ->
    In (file, p) (Session.submitted x) ->
    (file_size file <= 4 * 1024 * 1024)%N
    /\ In (file_type file) [js "image/png"; js "image/jpeg"; js "image/webp"]
    /\ forallb is_white_space p = false.
Proof.
  intros key x file p Hreach Hin.
  destruct (reachable_ok Hreach) as (_ & _ & _ & _ & Hsub & _).
  rewrite Forall_forall in Hsub. destruct (Hsub _ Hin) as [Hv Hp].
  cbn [fst snd] in Hv, Hp.
  destruct (valid_file_spec file Hv) as [H1 H2].
  repeat split; try assumption.
  destruct (forallb is_white_space p) eqn:E; [|reflexivity].
  apply trim_blank_iff in E. congruence.
Qed.

Lemma submitted_inputs_are_valid_witness :
  (file_size cat_png <= 4 * 1024 * 1024)%N
  /\ In (file_type cat_png) [js "image/png"; js "image/jpeg"; js "image/webp"]
  /\ forallb is_white_space a_prompt = false.
Proof.
  exact (@submitted_inputs_are_valid a_key
           {| Session.ui :=
                App.setEditedImageUrl None
                  (App.setRuntimeError None (App.setIsLoading true
                     (App.setPrompt a_prompt
                        (App.handleImageChange (Some cat_png) App.initial))));
              Session.timers := [];
              Session.inflight := [Throw (JsError (js "TypeError") (js "Failed to fetch"))];
              Session.submitted := [(cat_png, a_prompt)] |}
           cat_png a_prompt
           (ex_intro _ [Session.SelectFile cat_png; Session.TimerFires;
                        Session.EditPrompt a_prompt;
                        Session.ClickSubmit reader_ok service_down]
                     eq_refl)
           (or_introl eq_refl)).
Defined.

(** X20: Without the credential the page is inert: no event is enabled, the
    state never leaves the initial one, the service is never called, and
    the error shown is the configuration message. *)
Theorem unconfigured_is_inert :
  forall env x,
    truthy (API_KEY env) = false ->
    Session.reachable (API_KEY env) x ->
    x = Session.init
    /\ (forall a, Session.step (API_KEY env) a x = None)
    /\ App.error env (Session.ui x) = Some MSG_NOT_CONFIGURED.
Proof.
  intros env x Hkey [actions Hsteps].
  assert (Hnone : forall a, Session.step (API_KEY env) a Session.init = None).
  { intros [f| |v|reader service|]; cbn [Session.step];
      try reflexivity; rewrite Hkey; reflexivity. }
  assert (Hx : x = Session.init).
  { destruct actions as [|a actions]; cbn in Hsteps.
    - inversion Hsteps. reflexivity.
    - rewrite Hnone in Hsteps. discriminate. }
  subst x. split; [reflexivity|]. split; [exact Hnone|].
  unfold App.error, App.apiKeyError, App.isApiConfigured.
  rewrite Hkey. reflexivity.
Qed.

Lemma unconfigured_is_inert_witness :
  Session.step (API_KEY (env_of (Some []) reader_ok (Return response_stop)))
               (Session.SelectFile cat_png) Session.init = None
  /\ App.error (env_of (Some []) reader_ok (Return response_stop))
               (Session.ui Session.init)
     = Some MSG_NOT_CONFIGURED.
Proof.
  pose proof (@unconfigured_is_inert
                (env_of (Some []) reader_ok (Return response_stop))
                Session.init eq_refl (ex_intro _ [] eq_refl)) as H.
  exact (conj (proj1 (proj2 H) (Session.SelectFile cat_png)) (proj2 (proj2 H))).
Defined.

(** X21: The result image of a reachable state is always a [data:] URL, as
    [editImageWithAI] builds it. *)
Theorem result_is_data_uri :
  forall key x url,
    Session.reachable key x ->
    App.editedImageUrl (Session.ui x) = Some url ->
    exists rest, url = js "data:" ++ rest.
Proof.
  intros key x url Hreach Hurl.
  destruct (reachable_ok Hreach) as (_ & _ & _ & _ & _ & H).
  specialize (H url Hurl). unfold starts_with in H.
  destruct (strip_prefix (js "data:") url) as [rest|] eqn:E; [|discriminate].
  exists rest. apply strip_prefix_Some. exact E.
Qed.

Lemma result_is_data_uri_witness :
  exists rest, js "data:image/png;base64,iVBORw0KGgo=" = js "data:" ++ rest.
Proof.
  exact (@result_is_data_uri a_key
           {| Session.ui :=
                App.setIsLoading false
                  (App.setEditedImageUrl (Some (js "data:image/png;base64,iVBORw0KGgo="))
                     (App.setEditedImageUrl None
                        (App.setRuntimeError None (App.setIsLoading true
                           (App.setPrompt a_prompt
                              (App.handleImageChange (Some cat_png) App.initial))))));
              Session.timers := []; Session.inflight := [];
              Session.submitted := [(cat_png, a_prompt)] |}
           (js "data:image/png;base64,iVBORw0KGgo=")
           (ex_intro _ [Session.SelectFile cat_png; Session.TimerFires;
                        Session.EditPrompt a_prompt;
                        Session.ClickSubmit reader_ok service_image;
                        Session.Settle]
                     eq_refl)
           eq_refl).
Defined.

(** X22: A successful settlement does not clear the error slot.  When a file
    that is too large is picked while the call is pending (the file input
    stays enabled then), the session ends showing the returned image
    together with the too-large message, and holding no file. *)
Theorem result_beside_error :
  forall key reader service g p f url,
    truthy key = true ->
    valid_file g = true ->
    truthy_string (trim p) = true ->
    (4 * 1024 * 1024 < file_size f)%N ->
    fst (run (editImageWithAI
                {| API_KEY := key; readAsDataURL := reader;
                   generateContent := service |} g p))
    = Return url ->
    exists x,
      Session.steps key
        [Session.SelectFile g; Session.TimerFires; Session.EditPrompt p;
         Session.ClickSubmit reader service;
         Session.SelectFile f; Session.TimerFires; Session.Settle]
        Session.init
      = Some x
      /\ App.editedImageUrl (Session.ui x) = Some url
      /\ App.runtimeError (Session.ui x) = Some MSG_TOO_LARGE
      /\ App.originalImageFile (Session.ui x) = None
      /\ ImageDisplay.body (AppView.displayProps (Session.ui x))
         = ImageDisplay.Image url.
Proof.
  intros key reader service g p f url Hkey Hg Hp Hf Hrun.
  change (MAX_SIZE < file_size f)%N in Hf. apply N.ltb_lt in Hf.
  unfold valid_file in Hg. apply andb_prop in Hg. destruct Hg as [Hg1 Hg2].
  apply negb_true_iff in Hg1.
  assert (Hurl : truthy_string url = true).
  { pose proof (editImageWithAI_outcome_ok
                  {| API_KEY := key; readAsDataURL := reader;
                     generateContent := service |} g p) as Hok.
    rewrite Hrun in Hok. cbn [outcome_ok] in Hok.
    destruct url; [discriminate|reflexivity]. }
  eexists. split.
  - cbn [Session.steps Session.step].
    unfold AppView.inputDisabled, AppView.promptDisabled, AppView.submitDisabled,
      App.handleSubmit_begin, App.handleImageChange_timeout, AppView.no_file.
    rewrite Hkey. unfold Session.init, App.initial.
    repeat first [ progress (cbn [negb orb])
                 | progress proj_simpl
                 | progress (cbv beta iota zeta)
                 | rewrite Hg1 | rewrite Hg2 | rewrite Hp | rewrite Hf
                 | rewrite Hrun ].
    reflexivity.
  - proj_simpl. repeat split.
    unfold ImageDisplay.body, AppView.displayProps.
    cbn [ImageDisplay.isLoading ImageDisplay.imageUrl]. proj_simpl.
    rewrite Hurl.
    reflexivity.
Qed.

Lemma result_beside_error_witness :
  exists x,
    Session.steps a_key
      [Session.SelectFile cat_png; Session.TimerFires; Session.EditPrompt a_prompt;
       Session.ClickSubmit reader_ok service_image;
       Session.SelectFile big_jpeg; Session.TimerFires; Session.Settle]
      Session.init
    = Some x
    /\ App.editedImageUrl (Session.ui x) = Some (js "data:image/png;base64,iVBORw0KGgo=")
    /\ App.runtimeError (Session.ui x) = Some MSG_TOO_LARGE
    /\ App.originalImageFile (Session.ui x) = None
    /\ ImageDisplay.body (AppView.displayProps (Session.ui x))
       = ImageDisplay.Image (js "data:image/png;base64,iVBORw0KGgo=").
Proof.
  exact (@result_beside_error a_key reader_ok service_image cat_png a_prompt
           big_jpeg (js "data:image/png;base64,iVBORw0KGgo=")
           eq_refl eq_refl eq_refl eq_refl eq_refl).
Defined.

Lemma spec_media_type_skip :
  forall c s,
    spec_media_type_here (c :: s) = None ->
    spec_media_type (c :: s) = spec_media_type s.
Proof.
  intros c s H. cbn [spec_media_type]. rewrite H. reflexivity.
Qed.

Lemma no_colon_no_media_type :
  forall s : jsstring,
    forallb (fun c => negb (N.eqb c 58)) s = true ->
    spec_media_type s = None.
Proof.
  assert (Hhere : forall s : jsstring,
             forallb (fun c => negb (N.eqb c 58)) s = true ->
             spec_media_type_here s = None).
  { intros s Hs. unfold spec_media_type_here.
    destruct (strip_prefix (js "data:") s) as [s1|] eqn:E; [|reflexivity].
    apply strip_prefix_Some in E. subst s.
    rewrite forallb_app in Hs. apply andb_prop in Hs.
    destruct Hs as [Hs _]. vm_compute in Hs. discriminate. }
  induction s as [|c s IH]; intros Hs.
  - cbn [spec_media_type]. rewrite (Hhere [] Hs). reflexivity.
  - rewrite (spec_media_type_skip c s (Hhere (c :: s) Hs)).
    apply IH. simpl in Hs. apply andb_prop in Hs. tauto.
Qed.

(** X23: Inline data without a media type is still a success: the URL reads
    [data:undefined;base64,<data>], and its download is named with the
    fallback extension. *)
Theorem missing_media_type_downloads_png :
  forall response blob d,
    inlineImage response = Some blob ->
    mimeType blob = None ->
    data blob = Some d ->
    forallb (fun c => negb (N.eqb c 58)) d = true ->
    run (interpret response) = (Return (js "data:undefined;base64," ++ d), [])
    /\ handleDownload (Some (js "data:undefined;base64," ++ d))
       = Some {| href := js "data:undefined;base64," ++ d;
                 download := js "genz-hub-edit.png" |}.
Proof.
  intros response blob d Himg Hmime Hdata Hd. split.
  - unfold run. rewrite (interpret_image _ [] Himg), Hmime, Hdata. reflexivity.
  - etransitivity; [apply handleDownload_spec; discriminate|].
    unfold spec_extension.
    assert (Hnone : spec_media_type (js "data:undefined;base64," ++ d) = None).
    { let pre := eval vm_compute in (js "data:undefined;base64,") in
      change (js "data:undefined;base64,") with pre.
      cbn [app].
      repeat (rewrite spec_media_type_skip by reflexivity).
      apply no_colon_no_media_type. exact Hd. }
    rewrite Hnone. reflexivity.
Qed.

Lemma missing_media_type_downloads_png_witness :
  handleDownload (Some (js "data:undefined;base64," ++ js "iVBORw0KGgo="))
  = Some {| href := js "data:undefined;base64," ++ js "iVBORw0KGgo=";
            download := js "genz-hub-edit.png" |}.
Proof.
  exact (proj2 (@missing_media_type_downloads_png
                  (response_of (Some {| data := Some (js "iVBORw0KGgo=");
                                        mimeType := None |}) None)
                  {| data := Some (js "iVBORw0KGgo="); mimeType := None |}
                  (js "iVBORw0KGgo=") eq_refl eq_refl eq_refl eq_refl)).
Defined.

Lemma failed_submission_interleaved_witness :
  App.editedImageUrl
    (fst (handleSubmit_interleaved
            (editImageWithAI (mkEnv a_key reader_ok service_down)) true
            [UiSelect; UiTimeout exact_png; UiPrompt (js "other")] cat_loaded))
  = None
  /\ App.runtimeError
       (fst (handleSubmit_interleaved
               (editImageWithAI (mkEnv a_key reader_ok service_down)) true
               [UiSelect; UiTimeout exact_png; UiPrompt (js "other")] cat_loaded))
     = Some (js "Failed to fetch").
Proof.
  pose proof (@failed_submission_interleaved
                (editImageWithAI (mkEnv a_key reader_ok service_down))
                [UiSelect; UiTimeout exact_png; UiPrompt (js "other")]
                cat_loaded cat_png
                (JsError (js "TypeError") (js "Failed to fetch"))
                [EvReadAsDataURL cat_png;
                 EvGenerateContent
                   (sent_request cat_png a_prompt (js "data:image/png;base64,QUJD"));
                 EvConsoleError (js "Error calling AI service:")
                                (JsError (js "TypeError") (js "Failed to fetch"))]
                eq_refl eq_refl eq_refl) as H.
  exact (conj (proj1 H) (proj1 (proj2 H))).
Defined.

(** X25: Only the first part of the first candidate is read.  When it carries
    no inline data the answer is an error (safety or no image, by the finish
    reason of the first candidate), whatever the later parts and the other
    candidates hold, an image included. *)
Theorem only_first_part_is_read :
  forall first others reason more,
    inlineData first = None ->
    run (interpret
           {| candidates :=
                Some ({| content := Some {| parts := Some (first :: others) |};
                         finishReason := reason |} :: more) |})
    = (Throw (new_Error
                (match reason with
                 | Some r =>
                     if jsstring_eqb r (js "SAFETY")
                     then MSG_SAFETY_BLOCKED else MSG_NO_IMAGE
                 | None => MSG_NO_IMAGE
                 end)), []).
Proof.
  intros first others reason more Hfirst.
  unfold run, interpret, inlineImage, firstPart, finishedForSafety, firstCandidate.
  cbn [candidates nth_error content parts finishReason].
  rewrite Hfirst.
  destruct reason as [r|]; [destruct (jsstring_eqb r (js "SAFETY"))|]; reflexivity.
Qed.

Lemma only_first_part_is_read_witness :
  run (interpret
         {| candidates :=
              Some [ {| content :=
                          Some {| parts :=
                                    Some [ {| inlineData := None;
                                              text := Some (js "Here is your image") |};
                                           {| inlineData := Some png_blob;
                                              text := None |} ] |};
                        finishReason := Some (js "STOP") |} ] |})
  = (Throw (new_Error MSG_NO_IMAGE), []).
Proof.
  exact (@only_first_part_is_read
           {| inlineData := None; text := Some (js "Here is your image") |}
           [ {| inlineData := Some png_blob; text := None |} ]
           (Some (js "STOP")) [] eq_refl).
Defined.

(** X26: When the pattern of [handleDownload] matches, said without the engine:
    it matches exactly the URLs that contain [data:], a run of letters and
    digits, a slash and a run of subtype characters, each run the longest,
    with a comma later on the same line. *)
Theorem pattern_matches_iff :
  forall url,
    js_match MIME_RE url <> None
    <-> exists pre ty sub tail,
          url = pre ++ js "data:" ++ ty ++ js "/" ++ sub ++ tail
          /\ media_type_tokens ty sub tail = true.
Proof.
  intros url. split.
  - intros H.
    destruct (spec_media_type url) as [[ty sub]|] eqn:E.
    + destruct (spec_media_type_inv _ E) as (pre & tail & Eu & Htok).
      exists pre, ty, sub, tail. split; assumption.
    + apply js_match_none_iff in E. congruence.
  - intros (pre & ty & sub & tail & Eu & Htok) Hnone.
    apply js_match_none_iff in Hnone.
    apply (spec_media_type_found pre ty sub tail Htok).
    change (SLASH :: sub ++ tail) with (js "/" ++ sub ++ tail).
    rewrite <- Eu. exact Hnone.
Qed.

Lemma pattern_matches_iff_witness :
  js_match MIME_RE (js "see data:image/webp;q=1,x") <> None.
Proof.
  exact (proj2 (pattern_matches_iff (js "see data:image/webp;q=1,x"))
               (ex_intro _ (js "see ")
                  (ex_intro _ (js "image")
                     (ex_intro _ (js "webp")
                        (ex_intro _ (js ";q=1,x") (conj eq_refl eq_refl)))))).
Defined.
